(** * SalaryCompare: the access-controlled record and comparison state machine

    A shallow embedding of the [SalaryCompare] Solidity contract.  Contract
    storage is a record of finite maps, an external function is a computation
    in a state-and-revert monad, and a transaction either commits the state
    the computation ends in or, when a [require] fails, reverts to the state
    it started from. *)

From Stdlib Require Import NArith.
From stdpp Require Import gmap strings list.

Open Scope string_scope.
Open Scope N_scope.

(** ** Data *)

(** [address] is a 160-bit account identifier; [euint32] and [ebool] are the
    32-byte ciphertext handles of the FHE library; [externalEuint32] is the
    handle of a client-side ciphertext that comes with an input proof. *)
Abbreviation address := N (only parsing).
Abbreviation euint32 := N (only parsing).
Abbreviation ebool := N (only parsing).
Abbreviation externalEuint32 := N (only parsing).
Abbreviation bytes := (list Byte.byte) (only parsing).
Abbreviation uint256 := N (only parsing).

Inductive Event :=
| SalarySubmitted (user : address) (timestamp : uint256)
| SalaryCompared (user1 user2 : address) (timestamp : uint256)
| SalaryUpdated (user : address) (timestamp : uint256).

(** Contract storage, together with the part of the world state the contract
    writes to: the access-control list of the FHE library (pairs of a handle
    and an account allowed on it) and the event log. *)
Record State := mkState {
  salaries : gmap address euint32;
  hasSalary : gmap address bool;
  comparisonResults : gmap (address * address) ebool;
  comparisonPerformed : gmap (address * address) bool;
  acl : gset (N * address);
  events : list Event
}.

Definition init : State :=
  {| salaries := ∅; hasSalary := ∅; comparisonResults := ∅;
     comparisonPerformed := ∅; acl := ∅; events := [] |}.

(** A Solidity mapping is total: a key never written reads as the zero value. *)
Definition salary_at (s : State) (a : address) : euint32 :=
  default 0 (salaries s !! a).
Definition hasSalary_at (s : State) (a : address) : bool :=
  default false (hasSalary s !! a).
Definition result_at (s : State) (a b : address) : ebool :=
  default 0 (comparisonResults s !! (a, b)).
Definition performed_at (s : State) (a b : address) : bool :=
  default false (comparisonPerformed s !! (a, b)).

(** ** Reverts *)

(** A call reverts either on a failed [require], with the message of that
    [require], or inside [FHE.fromExternal], when the engine rejects the
    input proof. *)
Inductive Revert :=
| Error (msg : string)
| InvalidInputProof.

Inductive Result (A : Type) :=
| Ok (a : A)
| Reverted (e : Revert).
Arguments Ok {A} a.
Arguments Reverted {A} e.

(** The error names of the design document, and the [require] each one
    stands for. *)
Inductive ErrorKind :=
| InvalidCiphertext | NotFound | SelfComparison | AlreadyPerformed
| Unauthorized | EmptyBatch | BatchTooLarge | DuplicateInBatch.

Definition kind_of_message (msg : string) : option ErrorKind :=
  if String.eqb msg "Cannot compare salary with yourself" then Some SelfComparison
  else if String.eqb msg "Cannot compare with yourself" then Some SelfComparison
  else if String.eqb msg "You have not submitted a salary yet" then Some NotFound
  else if String.eqb msg "The other user has not submitted a salary yet" then Some NotFound
  else if String.eqb msg "One of the other users has not submitted a salary yet" then Some NotFound
  else if String.eqb msg "You must submit a salary first before updating it" then Some NotFound
  else if String.eqb msg "Comparison has not been performed yet" then Some NotFound
  else if String.eqb msg "Comparison already performed between these users" then Some AlreadyPerformed
  else if String.eqb msg "You can only view comparisons you are part of" then Some Unauthorized
  else if String.eqb msg "Must provide at least one user to compare with" then Some EmptyBatch
  else if String.eqb msg "Cannot compare with more than 10 users at once" then Some BatchTooLarge
  else if String.eqb msg "Duplicate addresses not allowed in batch comparison" then Some DuplicateInBatch
  else None.

Definition kind_of (e : Revert) : option ErrorKind :=
  match e with
  | Error msg => kind_of_message msg
  | InvalidInputProof => Some InvalidCiphertext
  end.

Definition fails_with {A} (r : Result A) (k : ErrorKind) : Prop :=
  exists e, r = Reverted e /\ kind_of e = Some k.

(** ** The state-and-revert monad *)

(** A computation runs from a state to a value and a new state, or reverts.
    A revert carries no state: the EVM discards every write of the call. *)
Definition M (A : Type) : Type := State -> Result (A * State).

Definition ret {A} (a : A) : M A := fun s => Ok (a, s).

Definition bind {A B} (m : M A) (k : A -> M B) : M B :=
  fun s => match m s with
           | Ok (a, s') => k a s'
           | Reverted e => Reverted e
           end.

Declare Scope sol_scope.
Delimit Scope sol_scope with sol.
Notation "x <- m ;; k" := (bind m (fun x => k))
  (at level 100, m at next level, right associativity) : sol_scope.
Notation "m ;; k" := (bind m (fun _ => k))
  (at level 100, right associativity) : sol_scope.

Definition require (c : bool) (msg : string) : M unit :=
  fun s => if c then Ok (tt, s) else Reverted (Error msg).

Definition read {A} (f : State -> A) : M A := fun s => Ok (f s, s).

Definition write (f : State -> State) : M unit := fun s => Ok (tt, f s).

(** Storage writes and [emit]. *)
Definition set_salaries (a : address) (h : euint32) (s : State) : State :=
  {| salaries := <[a := h]> (salaries s); hasSalary := hasSalary s;
     comparisonResults := comparisonResults s;
     comparisonPerformed := comparisonPerformed s;
     acl := acl s; events := events s |}.

Definition set_hasSalary (a : address) (b : bool) (s : State) : State :=
  {| salaries := salaries s; hasSalary := <[a := b]> (hasSalary s);
     comparisonResults := comparisonResults s;
     comparisonPerformed := comparisonPerformed s;
     acl := acl s; events := events s |}.

Definition set_comparisonResults (a b : address) (h : ebool) (s : State) : State :=
  {| salaries := salaries s; hasSalary := hasSalary s;
     comparisonResults := <[(a, b) := h]> (comparisonResults s);
     comparisonPerformed := comparisonPerformed s;
     acl := acl s; events := events s |}.

Definition set_comparisonPerformed (a b : address) (v : bool) (s : State) : State :=
  {| salaries := salaries s; hasSalary := hasSalary s;
     comparisonResults := comparisonResults s;
     comparisonPerformed := <[(a, b) := v]> (comparisonPerformed s);
     acl := acl s; events := events s |}.

Definition add_grant (h : N) (a : address) (s : State) : State :=
  {| salaries := salaries s; hasSalary := hasSalary s;
     comparisonResults := comparisonResults s;
     comparisonPerformed := comparisonPerformed s;
     acl := {[ (h, a) ]} ∪ acl s; events := events s |}.

Definition push_event (e : Event) (s : State) : State :=
  {| salaries := salaries s; hasSalary := hasSalary s;
     comparisonResults := comparisonResults s;
     comparisonPerformed := comparisonPerformed s;
     acl := acl s; events := events s ++ [e] |}.

Definition emit (e : Event) : M unit := write (push_event e).

(** ** The FHE library *)

(** The library is an external dependency of the contract.  Its two
    cryptographic entry points are the operations of an engine:
    [engine_fromExternal] checks an input proof and gives the internal handle
    ([None] when the proof is rejected), [engine_gt] gives the handle of the
    encrypted comparison of two handles.  The contract calls [FHE.gt] only on
    stored salaries, which it is allowed on, so the comparison itself never
    reverts. *)
Class Engine := {
  engine_fromExternal : externalEuint32 -> bytes -> option euint32;
  engine_gt : euint32 -> euint32 -> ebool
}.

(** ** The contract *)

Module SalaryCompare.
Section Contract.

Context {engine : Engine}.

(** The address of the deployed contract, [address(this)]. *)
Variable this : address.

Local Open Scope sol_scope.

Definition VERSION : string := "1.0.0".

Definition MAX_BATCH_SIZE : uint256 := 10.

Definition FHE_fromExternal (inputEuint32 : externalEuint32) (inputProof : bytes)
  : M euint32 :=
  fun s => match engine_fromExternal inputEuint32 inputProof with
           | Some h => Ok (h, s)
           | None => Reverted InvalidInputProof
           end.

Definition FHE_gt (a b : euint32) : M ebool := ret (engine_gt a b).

Definition FHE_allow (h : N) (account : address) : M unit :=
  write (add_grant h account).

Definition FHE_allowThis (h : N) : M unit := FHE_allow h this.

Section Call.

(** The environment of one external call. *)
Variable msg_sender : address.
Variable block_timestamp : uint256.

Definition getContractInfo : M (string * uint256 * uint256) :=
  let userCount : uint256 := 0 in
  let comparisonCount : uint256 := 0 in
  ret (VERSION, userCount, comparisonCount).

Definition submitSalary (inputEuint32 : externalEuint32) (inputProof : bytes)
  : M unit :=
  encryptedSalary <- FHE_fromExternal inputEuint32 inputProof ;;
  write (set_salaries msg_sender encryptedSalary) ;;
  write (set_hasSalary msg_sender true) ;;
  FHE_allowThis encryptedSalary ;;
  FHE_allow encryptedSalary msg_sender ;;
  emit (SalarySubmitted msg_sender block_timestamp).

Definition getMySalary : M euint32 :=
  has <- read (fun s => hasSalary_at s msg_sender) ;;
  require has "You have not submitted a salary yet" ;;
  read (fun s => salary_at s msg_sender).

Definition compareSalaries (otherUser : address) : M unit :=
  require (negb (msg_sender =? otherUser)) "Cannot compare salary with yourself" ;;
  has <- read (fun s => hasSalary_at s msg_sender) ;;
  require has "You have not submitted a salary yet" ;;
  hasOther <- read (fun s => hasSalary_at s otherUser) ;;
  require hasOther "The other user has not submitted a salary yet" ;;
  performed <- read (fun s => performed_at s msg_sender otherUser) ;;
  require (negb performed) "Comparison already performed between these users" ;;
  mine <- read (fun s => salary_at s msg_sender) ;;
  theirs <- read (fun s => salary_at s otherUser) ;;
  isGreater <- FHE_gt mine theirs ;;
  write (set_comparisonResults msg_sender otherUser isGreater) ;;
  write (set_comparisonPerformed msg_sender otherUser true) ;;
  FHE_allowThis isGreater ;;
  FHE_allow isGreater msg_sender ;;
  FHE_allow isGreater otherUser ;;
  emit (SalaryCompared msg_sender otherUser block_timestamp).

Definition getComparisonResult (user1 user2 : address) : M ebool :=
  require ((msg_sender =? user1) || (msg_sender =? user2))
          "You can only view comparisons you are part of" ;;
  performed <- read (fun s => performed_at s user1 user2) ;;
  require performed "Comparison has not been performed yet" ;;
  read (fun s => result_at s user1 user2).

Definition hasComparison (user1 user2 : address) : M bool :=
  read (fun s => performed_at s user1 user2).

Definition updateSalary (inputEuint32 : externalEuint32) (inputProof : bytes)
  : M unit :=
  has <- read (fun s => hasSalary_at s msg_sender) ;;
  require has "You must submit a salary first before updating it" ;;
  encryptedSalary <- FHE_fromExternal inputEuint32 inputProof ;;
  write (set_salaries msg_sender encryptedSalary) ;;
  write (set_hasSalary msg_sender true) ;;
  FHE_allowThis encryptedSalary ;;
  FHE_allow encryptedSalary msg_sender ;;
  emit (SalaryUpdated msg_sender block_timestamp).

(** The inner loop of [batchCompareSalaries]: [j] runs over the entries
    before index [i], here the list [earlier]. *)
Fixpoint duplicate_scan (earlier : list address) (otherUser : address) : M unit :=
  match earlier with
  | [] => ret tt
  | otherUsers_j :: earlier' =>
      require (negb (otherUsers_j =? otherUser))
              "Duplicate addresses not allowed in batch comparison" ;;
      duplicate_scan earlier' otherUser
  end.

(** The outer loop, at index [i] with the entries from [i] on still to do
    ([pending] is [drop i otherUsers]). *)
Fixpoint batch_loop (otherUsers : list address) (i : nat) (pending : list address)
  : M unit :=
  match pending with
  | [] => ret tt
  | otherUser :: pending' =>
      hasOther <- read (fun s => hasSalary_at s otherUser) ;;
      require hasOther "One of the other users has not submitted a salary yet" ;;
      require (negb (msg_sender =? otherUser)) "Cannot compare with yourself" ;;
      performed <- read (fun s => performed_at s msg_sender otherUser) ;;
      if performed : bool then batch_loop otherUsers (S i) pending'
      else
        duplicate_scan (take i otherUsers) otherUser ;;
        mine <- read (fun s => salary_at s msg_sender) ;;
        theirs <- read (fun s => salary_at s otherUser) ;;
        isGreater <- FHE_gt mine theirs ;;
        write (set_comparisonResults msg_sender otherUser isGreater) ;;
        write (set_comparisonPerformed msg_sender otherUser true) ;;
        FHE_allowThis isGreater ;;
        FHE_allow isGreater msg_sender ;;
        FHE_allow isGreater otherUser ;;
        emit (SalaryCompared msg_sender otherUser block_timestamp) ;;
        batch_loop otherUsers (S i) pending'
  end.

Definition batchCompareSalaries (otherUsers : list address) : M unit :=
  has <- read (fun s => hasSalary_at s msg_sender) ;;
  require has "You have not submitted a salary yet" ;;
  require (0 <? N.of_nat (length otherUsers))
          "Must provide at least one user to compare with" ;;
  require (N.of_nat (length otherUsers) <=? MAX_BATCH_SIZE)
          "Cannot compare with more than 10 users at once" ;;
  batch_loop otherUsers 0 otherUsers.

End Call.

(** ** Transactions *)

(** The external functions of the contract, as call data. *)
Inductive Call :=
| CallGetContractInfo
| CallVERSION
| CallHasSalary (user : address)
| CallSubmitSalary (inputEuint32 : externalEuint32) (inputProof : bytes)
| CallGetMySalary
| CallCompareSalaries (otherUser : address)
| CallGetComparisonResult (user1 user2 : address)
| CallHasComparison (user1 user2 : address)
| CallUpdateSalary (inputEuint32 : externalEuint32) (inputProof : bytes)
| CallBatchCompareSalaries (otherUsers : list address).

Inductive Value :=
| VUnit
| VBool (b : bool)
| VHandle (h : N)
| VString (str : string)
| VInfo (version : string) (totalUsers totalComparisons : uint256).

Definition returning {A} (f : A -> Value) (m : M A) : M Value :=
  a <- m ;; ret (f a).

Definition dispatch (msg_sender : address) (block_timestamp : uint256) (c : Call)
  : M Value :=
  match c with
  | CallGetContractInfo =>
      returning (fun '(v, u, n) => VInfo v u n) getContractInfo
  | CallVERSION => ret (VString VERSION)
  | CallHasSalary user => returning VBool (read (fun s => hasSalary_at s user))
  | CallSubmitSalary x p =>
      returning (fun _ => VUnit) (submitSalary msg_sender block_timestamp x p)
  | CallGetMySalary => returning VHandle (getMySalary msg_sender)
  | CallCompareSalaries o =>
      returning (fun _ => VUnit) (compareSalaries msg_sender block_timestamp o)
  | CallGetComparisonResult u1 u2 =>
      returning VHandle (getComparisonResult msg_sender u1 u2)
  | CallHasComparison u1 u2 => returning VBool (hasComparison u1 u2)
  | CallUpdateSalary x p =>
      returning (fun _ => VUnit) (updateSalary msg_sender block_timestamp x p)
  | CallBatchCompareSalaries os =>
      returning (fun _ => VUnit) (batchCompareSalaries msg_sender block_timestamp os)
  end.

(** A transaction commits the state its call ends in; a reverted call leaves
    the state it started from. *)
Definition transact {A} (m : M A) (s : State) : State * Result A :=
  match m s with
  | Ok (a, s') => (s', Ok a)
  | Reverted e => (s, Reverted e)
  end.

Record Tx := mkTx {
  tx_sender : address;
  tx_timestamp : uint256;
  tx_call : Call
}.

Definition exec (s : State) (tx : Tx) : State :=
  fst (transact (dispatch (tx_sender tx) (tx_timestamp tx) (tx_call tx)) s).

Definition outcome (s : State) (tx : Tx) : Result Value :=
  snd (transact (dispatch (tx_sender tx) (tx_timestamp tx) (tx_call tx)) s).

Definition run (s : State) (txs : list Tx) : State := fold_left exec txs s.

Definition reachable (s : State) : Prop := exists txs, s = run init txs.

End Contract.
End SalaryCompare.

(** ** Closed forms of the state changes *)

(** The proofs below go through the net effect of each function on the
    state; each closed form is proved equal to the monadic code first. *)
Module Effects.
Section Effects.

Context {engine : Engine}.
Variable this : address.
Variable msg_sender : address.
Variable block_timestamp : uint256.

(** The writes of [submitSalary] and [updateSalary] once the proof is
    accepted, with [ev] the event of the function. *)
Definition store_salary (encryptedSalary : euint32) (ev : Event) (s : State) : State :=
  push_event ev
    (add_grant encryptedSalary msg_sender
      (add_grant encryptedSalary this
        (set_hasSalary msg_sender true
          (set_salaries msg_sender encryptedSalary s)))).

(** The writes of one performed comparison, in [compareSalaries] and in one
    iteration of the loop of [batchCompareSalaries]. *)
Definition record_comparison (otherUser : address) (s : State) : State :=
  let isGreater := engine_gt (salary_at s msg_sender) (salary_at s otherUser) in
  push_event (SalaryCompared msg_sender otherUser block_timestamp)
    (add_grant isGreater otherUser
      (add_grant isGreater msg_sender
        (add_grant isGreater this
          (set_comparisonPerformed msg_sender otherUser true
            (set_comparisonResults msg_sender otherUser isGreater s))))).

(** The loop of [batchCompareSalaries] without its duplicate scan. *)
Fixpoint batch_effect (pending : list address) (s : State) : Result (unit * State) :=
  match pending with
  | [] => Ok (tt, s)
  | otherUser :: pending' =>
      if negb (hasSalary_at s otherUser)
      then Reverted (Error "One of the other users has not submitted a salary yet")
      else if msg_sender =? otherUser
      then Reverted (Error "Cannot compare with yourself")
      else if performed_at s msg_sender otherUser
      then batch_effect pending' s
      else batch_effect pending' (record_comparison otherUser s)
  end.

End Effects.
End Effects.

(** ** A concrete engine and concrete states, for examples *)

Module Demo.
Import SalaryCompare.

(** An engine that rejects the empty proof and accepts every other one. *)
Definition demo_engine : Engine :=
  {| engine_fromExternal := fun h proof =>
       match proof with [] => None | _ => Some h end;
     engine_gt := fun a b => 1000 + 100 * a + b |}.

Definition contract : address := 99.
Definition proof1 : bytes := [Byte.x01].

Definition submit (a : address) (h : externalEuint32) : Tx :=
  mkTx a 0 (CallSubmitSalary h proof1).

(** Accounts 1, 2 and 3 have submitted a salary; account 4 has not. *)
Definition three_salaries : State :=
  run (engine := demo_engine) contract init [submit 1 11; submit 2 12; submit 3 13].

(** Accounts 1 to 11 have submitted a salary. *)
Definition eleven_salaries : State :=
  run (engine := demo_engine) contract init
    (map (fun a => submit a (10 + a)) [1; 2; 3; 4; 5; 6; 7; 8; 9; 10; 11]).

Definition ten_targets : list address := [2; 3; 4; 5; 6; 7; 8; 9; 10; 11].

Definition eleven_targets : list address := [2; 3; 4; 5; 6; 7; 8; 9; 10; 11; 12].

(** Account 2 has compared itself with account 1; the pair (1, 2) has no
    record. *)
Definition compared_2_1 : State :=
  exec (engine := demo_engine) contract three_salaries
    (mkTx 2 1 (CallCompareSalaries 1)).

End Demo.

(** ** Invariants *)

Module Invariants.
Section Invariants.

Variable this : address.

(** [extends s s']: nothing that [s] records is lost or changed in [s'].
    Presence flags stay set, comparison records stay with the result they
    were created with, and the access-control list only grows. *)
Record extends (s s' : State) : Prop := mkExtends {
  ext_hasSalary : forall a, hasSalary_at s a = true -> hasSalary_at s' a = true;
  ext_performed : forall a b, performed_at s a b = true ->
    performed_at s' a b = true /\ result_at s' a b = result_at s a b;
  ext_acl : acl s ⊆ acl s'
}.

(** Every stored salary handle is granted to its owner and to the contract. *)
Definition salaries_granted (s : State) : Prop :=
  forall a, hasSalary_at s a = true ->
    (salary_at s a, a) ∈ acl s /\ (salary_at s a, this) ∈ acl s.

(** Every stored comparison result is granted to the requester, to the
    target and to the contract. *)
Definition results_granted (s : State) : Prop :=
  forall a b, performed_at s a b = true ->
    (result_at s a b, a) ∈ acl s /\ (result_at s a b, b) ∈ acl s
    /\ (result_at s a b, this) ∈ acl s.

Definition well_granted (s : State) : Prop :=
  salaries_granted s /\ results_granted s.

End Invariants.
End Invariants.

(** ** Atomic steps *)

(** Every state change of the contract is made of three kinds of step: a
    salary written by [submitSalary], a salary written by [updateSalary],
    which asks for an earlier one, and one comparison recorded under the
    guards shared by [compareSalaries] and the loop of
    [batchCompareSalaries]. *)
Module Steps.
Import Effects.
Section Steps.

Context {engine : Engine}.
Variable this : address.

Inductive step : State -> State -> Prop :=
| step_submit s sender ts h :
    step s (store_salary this sender h (SalarySubmitted sender ts) s)
| step_update s sender ts h :
    hasSalary_at s sender = true ->
    step s (store_salary this sender h (SalaryUpdated sender ts) s)
| step_compare s sender ts o :
    sender <> o ->
    hasSalary_at s sender = true -> hasSalary_at s o = true ->
    performed_at s sender o = false ->
    step s (record_comparison this sender ts o s).

End Steps.

(** The pairs of the [SalaryCompared] events of a log, oldest first. *)
Definition compared_pair (e : Event) : option (address * address) :=
  match e with
  | SalaryCompared user1 user2 _ => Some (user1, user2)
  | _ => None
  end.

Definition compared_pairs (log : list Event) : list (address * address) :=
  omap compared_pair log.

(** The users of the [SalarySubmitted] events of a log. *)
Definition submitted_user (e : Event) : option address :=
  match e with
  | SalarySubmitted user _ => Some user
  | _ => None
  end.

Definition submitted_users (log : list Event) : list address :=
  omap submitted_user log.

End Steps.

(** ** The address field of the front end *)

Module Frontend.
Import Stdlib.Strings.Ascii.

(** The character class of the pattern: a to f, A to F, 0 to 9. *)
Definition is_hex_digit (c : ascii) : bool :=
  let n := nat_of_ascii c in
  ((97 <=? n) && (n <=? 102) || (65 <=? n) && (n <=? 70)
   || (48 <=? n) && (n <=? 57))%nat.

(** Exactly [n] characters of the class, then the end of the input. *)
Fixpoint hex_digits_to_end (n : nat) (str : string) : bool :=
  match n, str with
  | O, EmptyString => true
  | S n', String c rest => is_hex_digit c && hex_digits_to_end n' rest
  | _, _ => false
  end.

(** The test of the pattern [^0x[a-fA-F0-9]{40}$]: the two characters 0 and
    x at the start of the input, 40 characters of the class, and the end of
    the input. *)
Definition isValidEthereumAddress (address : string) : bool :=
  match address with
  | String "0"%char (String "x"%char rest) => hex_digits_to_end 40 rest
  | _ => false
  end.

(** The letter of the other case for a letter, the character itself for
    anything else. *)
Definition flip_case (c : ascii) : ascii :=
  let n := nat_of_ascii c in
  if ((97 <=? n) && (n <=? 122))%nat then ascii_of_nat (n - 32)
  else if ((65 <=? n) && (n <=? 90))%nat then ascii_of_nat (n + 32)
  else c.

(** [variant] is [str] with the case of some of its characters flipped. *)
Inductive case_variant : string -> string -> Prop :=
| case_variant_nil : case_variant EmptyString EmptyString
| case_variant_keep c str variant :
    case_variant str variant -> case_variant (String c str) (String c variant)
| case_variant_flip c str variant :
    case_variant str variant ->
    case_variant (String c str) (String (flip_case c) variant).

(** The condition under which a click on the compare button calls the
    contract, and the [disabled] attribute of the button.  A string is
    truthy when it is not empty. *)
Definition is_truthy (str : string) : bool :=
  match str with EmptyString => false | _ => true end.

Definition compare_click_calls (compareAddress : string) : bool :=
  is_truthy compareAddress && isValidEthereumAddress compareAddress.

Definition compare_button_disabled (canCompare : bool) (compareAddress : string)
  : bool :=
  negb canCompare || negb (is_truthy compareAddress)
  || negb (isValidEthereumAddress compareAddress).

(** *** The salary form *)

Section SalaryForm.

(** [parseInt] is the built-in of the language: it gives an integer or
    NaN ([None]).  The form only compares its result with 0 and with
    10000000, and on these comparisons the number agrees with the integer it
    stands for; every comparison with NaN is false. *)
Variable parseInt : string -> option Z.

Definition MAX_SALARY : Z := 10000000.

Definition num_gt (x : option Z) (k : Z) : bool :=
  match x with Some v => (k <? v)%Z | None => false end.

Definition num_le (x : option Z) (k : Z) : bool :=
  match x with Some v => (v <=? k)%Z | None => false end.

(** The guard of [handleSalarySubmit]: the salary it passes on to the
    contract hook, when it passes one. *)
Definition handleSalarySubmit_salary (salaryInput : string) (canSubmit : bool)
  : option Z :=
  let salary := parseInt salaryInput in
  if num_gt salary 0 && num_le salary MAX_SALARY && canSubmit
  then salary else None.

(** The [disabled] attribute of the submit button. *)
Definition submit_button_disabled (canSubmit : bool) (salaryInput : string) : bool :=
  negb canSubmit || negb (is_truthy salaryInput)
  || num_le (parseInt salaryInput) 0 || num_gt (parseInt salaryInput) 10000000.

End SalaryForm.

(** A reader of unsigned decimal numerals, for examples: the value of the
    leading digits, NaN when there is none. *)
Fixpoint decimal_prefix (acc : option Z) (str : string) : option Z :=
  match str with
  | String c rest =>
      let n := nat_of_ascii c in
      if ((48 <=? n) && (n <=? 57))%nat
      then decimal_prefix (Some (10 * default 0%Z acc + Z.of_nat (n - 48))%Z) rest
      else acc
  | EmptyString => acc
  end.

Definition demo_parseInt (str : string) : option Z := decimal_prefix None str.

End Frontend.

(** ** More concrete states and inputs, for examples *)

Module Scenarios.
Import SalaryCompare Demo.

(** Account 1 has compared itself with account 2; account 3 has a salary
    and no record. *)
Definition compared_1_2 : State :=
  exec (engine := demo_engine) contract three_salaries
    (mkTx 1 5 (CallCompareSalaries 2)).

Definition history_2_1 : list Tx :=
  [submit 1 11; submit 2 12; submit 3 13; mkTx 2 1 (CallCompareSalaries 1)].

(** An address in upper-case digits and the same address in lower case. *)
Definition upper_address : string := "0x52908400098527886E0F7030069857D2E4169EE7".
Definition upper_digits : string := "52908400098527886E0F7030069857D2E4169EE7".
Definition lower_digits : string := "52908400098527886e0f7030069857d2e4169ee7".

End Scenarios.

(** * Properties *)

Import SalaryCompare Effects Invariants.

(** ** Reading a mapping after a write *)

Section Storage.

Implicit Types (s : State) (a b : address).

Lemma hasSalary_at_set_hasSalary s a b :
  hasSalary_at (set_hasSalary a true s) b
  = if decide (a = b) then true else hasSalary_at s b.
Proof.
  unfold hasSalary_at, set_hasSalary; simpl.
  rewrite lookup_insert. by case_decide.
Qed.

Lemma salary_at_set_salaries s a b h :
  salary_at (set_salaries a h s) b
  = if decide (a = b) then h else salary_at s b.
Proof.
  unfold salary_at, set_salaries; simpl.
  rewrite lookup_insert. by case_decide.
Qed.

Lemma performed_at_set_comparisonPerformed s a b x y :
  performed_at (set_comparisonPerformed a b true s) x y
  = if decide ((a, b) = (x, y)) then true else performed_at s x y.
Proof.
  unfold performed_at, set_comparisonPerformed; simpl.
  rewrite lookup_insert. by case_decide.
Qed.

Lemma result_at_set_comparisonResults s a b h x y :
  result_at (set_comparisonResults a b h s) x y
  = if decide ((a, b) = (x, y)) then h else result_at s x y.
Proof.
  unfold result_at, set_comparisonResults; simpl.
  rewrite lookup_insert. by case_decide.
Qed.

End Storage.

Section Effects_facts.

Context {engine : Engine}.
Variable this : address.
Implicit Types (s : State) (a b : address).

(** *** What [store_salary] changes *)

Lemma hasSalary_at_store_salary sender h ev s a :
  hasSalary_at (store_salary this sender h ev s) a
  = if decide (sender = a) then true else hasSalary_at s a.
Proof. exact (hasSalary_at_set_hasSalary (set_salaries sender h s) sender a). Qed.

Lemma salary_at_store_salary sender h ev s a :
  salary_at (store_salary this sender h ev s) a
  = if decide (sender = a) then h else salary_at s a.
Proof. exact (salary_at_set_salaries s sender a h). Qed.

Lemma performed_at_store_salary sender h ev s a b :
  performed_at (store_salary this sender h ev s) a b = performed_at s a b.
Proof. reflexivity. Qed.

Lemma result_at_store_salary sender h ev s a b :
  result_at (store_salary this sender h ev s) a b = result_at s a b.
Proof. reflexivity. Qed.

Lemma acl_store_salary sender h ev s :
  acl (store_salary this sender h ev s) = {[ (h, sender) ]} ∪ ({[ (h, this) ]} ∪ acl s).
Proof. reflexivity. Qed.

(** *** What [record_comparison] changes *)

Lemma hasSalary_at_record_comparison sender ts o s a :
  hasSalary_at (record_comparison this sender ts o s) a = hasSalary_at s a.
Proof. reflexivity. Qed.

Lemma salary_at_record_comparison sender ts o s a :
  salary_at (record_comparison this sender ts o s) a = salary_at s a.
Proof. reflexivity. Qed.

Lemma performed_at_record_comparison sender ts o s a b :
  performed_at (record_comparison this sender ts o s) a b
  = if decide ((sender, o) = (a, b)) then true else performed_at s a b.
Proof.
  exact (performed_at_set_comparisonPerformed
           (set_comparisonResults sender o _ s) sender o a b).
Qed.

Lemma result_at_record_comparison sender ts o s a b :
  result_at (record_comparison this sender ts o s) a b
  = if decide ((sender, o) = (a, b))
    then engine_gt (salary_at s sender) (salary_at s o)
    else result_at s a b.
Proof. exact (result_at_set_comparisonResults s sender o _ a b). Qed.

Lemma acl_record_comparison sender ts o s :
  acl (record_comparison this sender ts o s)
  = let h := engine_gt (salary_at s sender) (salary_at s o) in
    {[ (h, o) ]} ∪ ({[ (h, sender) ]} ∪ ({[ (h, this) ]} ∪ acl s)).
Proof. reflexivity. Qed.

End Effects_facts.

(** ** The monadic code and its closed forms *)

Section Runs.

Context {engine : Engine}.
Variable this : address.
Variables (sender : address) (ts : uint256).
Implicit Types (s : State) (a b o : address).

Lemma submitSalary_run x p s :
  submitSalary this sender ts x p s
  = match engine_fromExternal x p with
    | Some h => Ok (tt, store_salary this sender h (SalarySubmitted sender ts) s)
    | None => Reverted InvalidInputProof
    end.
Proof.
  unfold submitSalary, bind, FHE_fromExternal.
  destruct (engine_fromExternal x p); reflexivity.
Qed.

Lemma updateSalary_run x p s :
  updateSalary this sender ts x p s
  = if hasSalary_at s sender
    then match engine_fromExternal x p with
         | Some h => Ok (tt, store_salary this sender h (SalaryUpdated sender ts) s)
         | None => Reverted InvalidInputProof
         end
    else Reverted (Error "You must submit a salary first before updating it").
Proof.
  unfold updateSalary, bind, FHE_fromExternal, read, require.
  destruct (hasSalary_at s sender); [|reflexivity].
  destruct (engine_fromExternal x p); reflexivity.
Qed.

Lemma getMySalary_run s :
  getMySalary sender s
  = if hasSalary_at s sender then Ok (salary_at s sender, s)
    else Reverted (Error "You have not submitted a salary yet").
Proof.
  unfold getMySalary, bind, read, require.
  destruct (hasSalary_at s sender); reflexivity.
Qed.

Lemma compareSalaries_run o s :
  compareSalaries this sender ts o s
  = if sender =? o
    then Reverted (Error "Cannot compare salary with yourself")
    else if negb (hasSalary_at s sender)
    then Reverted (Error "You have not submitted a salary yet")
    else if negb (hasSalary_at s o)
    then Reverted (Error "The other user has not submitted a salary yet")
    else if performed_at s sender o
    then Reverted (Error "Comparison already performed between these users")
    else Ok (tt, record_comparison this sender ts o s).
Proof.
  unfold compareSalaries, bind, read, require.
  destruct (sender =? o); [reflexivity|]; simpl.
  destruct (hasSalary_at s sender); [|reflexivity]; simpl.
  destruct (hasSalary_at s o); [|reflexivity]; simpl.
  destruct (performed_at s sender o); reflexivity.
Qed.

Lemma getComparisonResult_run u1 u2 s :
  getComparisonResult sender u1 u2 s
  = if (sender =? u1) || (sender =? u2)
    then if performed_at s u1 u2 then Ok (result_at s u1 u2, s)
         else Reverted (Error "Comparison has not been performed yet")
    else Reverted (Error "You can only view comparisons you are part of").
Proof.
  unfold getComparisonResult, bind, read, require.
  destruct ((sender =? u1) || (sender =? u2)); [|reflexivity].
  destruct (performed_at s u1 u2); reflexivity.
Qed.

(** *** The loop of the batch *)

Lemma duplicate_scan_run earlier o s :
  duplicate_scan earlier o s
  = if bool_decide (o ∈ earlier)
    then Reverted (Error "Duplicate addresses not allowed in batch comparison")
    else Ok (tt, s).
Proof.
  induction earlier as [|u earlier IH]; simpl; [reflexivity|].
  unfold bind, require. destruct (N.eqb_spec u o) as [->|Hne]; simpl.
  - rewrite bool_decide_eq_true_2; [reflexivity | left].
  - rewrite IH. destruct (decide (o ∈ earlier)) as [Hin|Hin].
    + rewrite !bool_decide_eq_true_2; [reflexivity | by right | done].
    + rewrite !bool_decide_eq_false_2; [reflexivity | | done].
      intros [?|?]%elem_of_cons; congruence.
Qed.

(** One iteration of the outer loop. *)
Lemma batch_loop_step us i o pending s :
  batch_loop this sender ts us i (o :: pending) s
  = if negb (hasSalary_at s o)
    then Reverted (Error "One of the other users has not submitted a salary yet")
    else if sender =? o
    then Reverted (Error "Cannot compare with yourself")
    else if performed_at s sender o
    then batch_loop this sender ts us (S i) pending s
    else if bool_decide (o ∈ take i us)
    then Reverted (Error "Duplicate addresses not allowed in batch comparison")
    else batch_loop this sender ts us (S i) pending
           (record_comparison this sender ts o s).
Proof.
  cbn [batch_loop]. unfold bind at 1, read at 1.
  unfold bind at 1, require at 1.
  destruct (hasSalary_at s o); [|reflexivity]; cbn [negb].
  unfold bind at 1, require at 1.
  destruct (sender =? o); [reflexivity|]; cbn [negb].
  unfold bind at 1, read at 1.
  destruct (performed_at s sender o); [reflexivity|].
  unfold bind at 1. rewrite duplicate_scan_run.
  destruct (bool_decide (o ∈ take i us)); reflexivity.
Qed.

(** At index [i] every earlier entry of the batch already has its record:
    it was either skipped, because the record was there, or processed, which
    created it.  So the duplicate scan, which runs only for an entry without
    a record, never finds it among the earlier entries. *)
Lemma batch_loop_run us : forall pending i s,
  drop i us = pending ->
  (forall u, u ∈ take i us -> performed_at s sender u = true) ->
  batch_loop this sender ts us i pending s = batch_effect this sender ts pending s.
Proof.
  induction pending as [|o pending IH]; intros i s Hdrop Hseen; [reflexivity|].
  assert (Hi : us !! i = Some o).
  { rewrite <- (Nat.add_0_r i), <- lookup_drop, Hdrop. reflexivity. }
  assert (Hdrop' : drop (S i) us = pending).
  { pose proof (drop_S us o i Hi) as E. rewrite Hdrop in E. congruence. }
  rewrite batch_loop_step. cbn [batch_effect].
  destruct (hasSalary_at s o); [|reflexivity]; cbn [negb].
  destruct (sender =? o); [reflexivity|].
  destruct (performed_at s sender o) eqn:Hperf.
  - apply IH; [exact Hdrop'|].
    intros u. rewrite (take_S_r us i o Hi), elem_of_app, list_elem_of_singleton.
    intros [Hu| ->]; [by apply Hseen | exact Hperf].
  - rewrite bool_decide_eq_false_2.
    2:{ intros Hin. apply Hseen in Hin. congruence. }
    apply IH; [exact Hdrop'|].
    intros u. rewrite (take_S_r us i o Hi), elem_of_app, list_elem_of_singleton.
    rewrite performed_at_record_comparison.
    intros [Hu| ->]; case_decide; try done. by apply Hseen.
Qed.

Lemma batchCompareSalaries_run us s :
  batchCompareSalaries this sender ts us s
  = if negb (hasSalary_at s sender)
    then Reverted (Error "You have not submitted a salary yet")
    else if negb (0 <? N.of_nat (length us))
    then Reverted (Error "Must provide at least one user to compare with")
    else if negb (N.of_nat (length us) <=? MAX_BATCH_SIZE)
    then Reverted (Error "Cannot compare with more than 10 users at once")
    else batch_effect this sender ts us s.
Proof.
  unfold batchCompareSalaries, bind, read, require.
  destruct (hasSalary_at s sender); [|reflexivity]; cbn [negb].
  destruct (0 <? N.of_nat (length us)); [|reflexivity]; cbn [negb].
  destruct (N.of_nat (length us) <=? MAX_BATCH_SIZE); [|reflexivity]; cbn [negb].
  apply batch_loop_run; [reflexivity|].
  intros u Hu. rewrite take_0 in Hu. by apply elem_of_nil in Hu.
Qed.

End Runs.

(** ** Monotonicity of the state *)

Section Monotone.

Context {engine : Engine}.
Variable this : address.
Implicit Types (s : State) (a b o : address).

Lemma extends_refl s : extends s s.
Proof. split; [done | done | set_solver]. Qed.

Lemma extends_trans s1 s2 s3 : extends s1 s2 -> extends s2 s3 -> extends s1 s3.
Proof.
  intros [H1 P1 A1] [H2 P2 A2]. split.
  - auto.
  - intros a b Hp. destruct (P1 a b Hp) as [Hp2 E1].
    destruct (P2 a b Hp2) as [Hp3 E2]. split; [done | congruence].
  - by trans (acl s2).
Qed.

Lemma extends_store_salary sender h ev s :
  extends s (store_salary this sender h ev s).
Proof.
  split.
  - intros a Ha. rewrite hasSalary_at_store_salary. by case_decide.
  - intros a b Hp. by rewrite performed_at_store_salary, result_at_store_salary.
  - rewrite acl_store_salary. set_solver.
Qed.

(** A new record extends the state as long as the pair had none: this is
    the guard that keeps a stored result from being overwritten. *)
Lemma extends_record_comparison sender ts o s :
  performed_at s sender o = false ->
  extends s (record_comparison this sender ts o s).
Proof.
  intros Hnew. split.
  - done.
  - intros a b Hp.
    rewrite performed_at_record_comparison, result_at_record_comparison.
    case_decide as E; [|done]. inversion E; subst. congruence.
  - rewrite acl_record_comparison. set_solver.
Qed.

Lemma batch_effect_extends sender ts pending : forall s s',
  batch_effect this sender ts pending s = Ok (tt, s') -> extends s s'.
Proof.
  induction pending as [|o pending IH]; intros s s'; cbn [batch_effect].
  - intros [= <-]. apply extends_refl.
  - destruct (hasSalary_at s o); [|done]; cbn [negb].
    destruct (sender =? o); [done|].
    destruct (performed_at s sender o) eqn:Hp; [by apply IH|].
    intros H%IH. eapply extends_trans; [|exact H].
    by apply extends_record_comparison.
Qed.

(** The batch leaves salaries and presence flags alone. *)
Lemma batch_effect_salaries sender ts pending : forall s s',
  batch_effect this sender ts pending s = Ok (tt, s') ->
  salaries s' = salaries s /\ hasSalary s' = hasSalary s.
Proof.
  induction pending as [|o pending IH]; intros s s'; cbn [batch_effect].
  - by intros [= <-].
  - destruct (hasSalary_at s o); [|done]; cbn [negb].
    destruct (sender =? o); [done|].
    destruct (performed_at s sender o); [by apply IH|].
    intros H%IH. exact H.
Qed.

(** A record that appears during the batch is for the caller and an entry of
    the batch that has a salary and is not the caller. *)
Lemma batch_effect_new_record sender ts pending : forall s s' a b,
  batch_effect this sender ts pending s = Ok (tt, s') ->
  performed_at s a b = false -> performed_at s' a b = true ->
  a = sender /\ b ∈ pending /\ a <> b /\ hasSalary_at s b = true.
Proof.
  induction pending as [|o pending IH]; intros s s' a b; cbn [batch_effect].
  - intros [= <-]. congruence.
  - destruct (hasSalary_at s o) eqn:Ho; [|done]; cbn [negb].
    destruct (N.eqb_spec sender o) as [|Hne]; [done|].
    destruct (performed_at s sender o) eqn:Hp.
    + intros Hrun Hold Hnew.
      destruct (IH _ _ _ _ Hrun Hold Hnew) as (-> & Hin & Hab & Hb).
      repeat split; [by right | done | done].
    + intros Hrun Hold Hnew.
      destruct (decide ((sender, o) = (a, b))) as [E|E].
      * inversion E; subst. repeat split; [by left | done | done].
      * assert (Hold' : performed_at (record_comparison this sender ts o s) a b = false).
        { rewrite performed_at_record_comparison. by case_decide. }
        destruct (IH _ _ _ _ Hrun Hold' Hnew) as (-> & Hin & Hab & Hb).
        repeat split; [by right | done | done].
Qed.

(** The batch goes through whenever every entry has a salary and none is
    the caller; a repeated entry is no obstacle. *)
Lemma batch_effect_succeeds sender ts pending : forall s,
  (forall o, o ∈ pending -> hasSalary_at s o = true /\ o <> sender) ->
  exists s', batch_effect this sender ts pending s = Ok (tt, s').
Proof.
  induction pending as [|o pending IH]; intros s Hall; cbn [batch_effect].
  - by eexists.
  - destruct (Hall o) as [Ho Hne]; [by left|]. rewrite Ho; cbn [negb].
    destruct (N.eqb_spec sender o) as [|_]; [congruence|].
    destruct (performed_at s sender o); apply IH; intros u Hu; apply Hall; by right.
Qed.

(** Every entry of a batch that went through has its record. *)
Lemma batch_effect_all_recorded sender ts pending : forall s s',
  batch_effect this sender ts pending s = Ok (tt, s') ->
  forall o, o ∈ pending -> performed_at s' sender o = true.
Proof.
  induction pending as [|o pending IH]; intros s s'; cbn [batch_effect].
  - intros _ o Ho. by apply elem_of_nil in Ho.
  - destruct (hasSalary_at s o); [|done]; cbn [negb].
    destruct (sender =? o); [done|].
    destruct (performed_at s sender o) eqn:Hp; intros Hrun u [->|Hu]%elem_of_cons.
    + apply batch_effect_extends in Hrun. by apply (ext_performed _ _ Hrun).
    + by eapply IH.
    + apply batch_effect_extends in Hrun. apply (ext_performed _ _ Hrun).
      rewrite performed_at_record_comparison. by case_decide.
    + by eapply IH.
Qed.

(** The loop reverts on a missing salary or on the caller itself, and on
    nothing else. *)
Lemma batch_effect_reverts sender ts pending : forall s e,
  batch_effect this sender ts pending s = Reverted e ->
  e = Error "One of the other users has not submitted a salary yet"
  \/ e = Error "Cannot compare with yourself".
Proof.
  induction pending as [|o pending IH]; intros s e; cbn [batch_effect]; [done|].
  destruct (hasSalary_at s o); cbn [negb]; [|intros [= <-]; by left].
  destruct (sender =? o); [intros [= <-]; by right|].
  destruct (performed_at s sender o); apply IH.
Qed.

End Monotone.

(** ** Transactions *)

Section Transactions.

Context {engine : Engine}.
Variable this : address.
Implicit Types (s : State) (a b o : address) (tx : Tx).

(** What a call that went through did to the state: nothing, a salary
    write, one recorded comparison, or the records of a batch. *)
Lemma dispatch_inv sender ts c s v s' :
  dispatch this sender ts c s = Ok (v, s') ->
  s' = s
  \/ (exists h ev, s' = store_salary this sender h ev s)
  \/ (exists o, c = CallCompareSalaries o /\ v = VUnit /\ sender <> o
        /\ hasSalary_at s sender = true /\ hasSalary_at s o = true
        /\ performed_at s sender o = false
        /\ s' = record_comparison this sender ts o s)
  \/ (exists os, c = CallBatchCompareSalaries os /\ v = VUnit
        /\ hasSalary_at s sender = true
        /\ batch_effect this sender ts os s = Ok (tt, s')).
Proof.
  destruct c; unfold dispatch, returning, bind.
  - intros [= _ <-]. by left.
  - intros [= _ <-]. by left.
  - intros [= _ <-]. by left.
  - rewrite submitSalary_run. destruct (engine_fromExternal _ _); [|done].
    intros [= _ <-]. right; left. by do 2 eexists.
  - rewrite getMySalary_run. destruct (hasSalary_at s sender); [|done].
    intros [= _ <-]. by left.
  - rewrite compareSalaries_run.
    destruct (N.eqb_spec sender otherUser) as [|Hne]; [done|].
    destruct (hasSalary_at s sender) eqn:Hs; [|done]; cbn [negb].
    destruct (hasSalary_at s otherUser) eqn:Ho; [|done]; cbn [negb].
    destruct (performed_at s sender otherUser) eqn:Hp; [done|].
    intros [= <- <-]. right; right; left. by exists otherUser.
  - rewrite getComparisonResult_run.
    destruct ((sender =? user1) || (sender =? user2)); [|done].
    destruct (performed_at s user1 user2); [|done].
    intros [= _ <-]. by left.
  - intros [= _ <-]. by left.
  - rewrite updateSalary_run. destruct (hasSalary_at s sender); [|done].
    destruct (engine_fromExternal _ _); [|done].
    intros [= _ <-]. right; left. by do 2 eexists.
  - rewrite batchCompareSalaries_run.
    destruct (hasSalary_at s sender) eqn:Hs; [|done]; cbn [negb].
    destruct (0 <? N.of_nat (length otherUsers)); [|done]; cbn [negb].
    destruct (N.of_nat (length otherUsers) <=? MAX_BATCH_SIZE); [|done]; cbn [negb].
    destruct (batch_effect _ _ _ _ _) as [[[] s'']|] eqn:Hb; [|done].
    intros [= <- <-]. right; right; right. by exists otherUsers.
Qed.

(** A transaction ends in the state of its call when the call went
    through, and in the state it started from when the call reverted. *)
Lemma exec_cases s tx :
  (exists v s', dispatch this (tx_sender tx) (tx_timestamp tx) (tx_call tx) s = Ok (v, s')
      /\ exec this s tx = s' /\ outcome this s tx = Ok v)
  \/ (exists e, dispatch this (tx_sender tx) (tx_timestamp tx) (tx_call tx) s = Reverted e
      /\ exec this s tx = s /\ outcome this s tx = Reverted e).
Proof.
  unfold exec, outcome, transact.
  destruct (dispatch _ _ _ _ s) as [[v s']|e]; [left | right]; eauto.
Qed.

Lemma dispatch_extends sender ts c s v s' :
  dispatch this sender ts c s = Ok (v, s') -> extends s s'.
Proof.
  intros [-> | [(h & ev & ->) | [(o & _ & _ & _ & _ & _ & Hp & ->) | (os & _ & _ & _ & Hb)]]]%dispatch_inv.
  - apply extends_refl.
  - apply extends_store_salary.
  - by apply extends_record_comparison.
  - by eapply batch_effect_extends.
Qed.

Lemma exec_extends s tx : extends s (exec this s tx).
Proof.
  destruct (exec_cases s tx) as [(v & s' & Hd & -> & _) | (e & _ & -> & _)].
  - by eapply dispatch_extends.
  - apply extends_refl.
Qed.

Lemma run_extends txs : forall s, extends s (run this s txs).
Proof.
  induction txs as [|tx txs IH]; intros s; [apply extends_refl|].
  eapply extends_trans; [apply (exec_extends s tx) | apply IH].
Qed.

(** *** The grants invariant *)

Lemma well_granted_init : well_granted this init.
Proof. split; intros a; done. Qed.

Lemma well_granted_store_salary sender h ev s :
  well_granted this s -> well_granted this (store_salary this sender h ev s).
Proof.
  intros [Hs Hr]. split.
  - intros a. rewrite hasSalary_at_store_salary, salary_at_store_salary, acl_store_salary.
    case_decide as E; [subst; set_solver|].
    intros Ha. destruct (Hs a Ha). set_solver.
  - intros a b. rewrite performed_at_store_salary, result_at_store_salary, acl_store_salary.
    intros Hp. destruct (Hr a b Hp) as (? & ? & ?). set_solver.
Qed.

Lemma well_granted_record_comparison sender ts o s :
  well_granted this s -> well_granted this (record_comparison this sender ts o s).
Proof.
  intros [Hs Hr]. split.
  - intros a. rewrite hasSalary_at_record_comparison, salary_at_record_comparison,
      acl_record_comparison.
    intros Ha. destruct (Hs a Ha). cbn zeta. set_solver.
  - intros a b. rewrite performed_at_record_comparison, result_at_record_comparison,
      acl_record_comparison. cbn zeta.
    case_decide as E; [inversion E; subst; set_solver|].
    intros Hp. destruct (Hr a b Hp) as (? & ? & ?). set_solver.
Qed.

Lemma well_granted_batch_effect sender ts pending : forall s s',
  batch_effect this sender ts pending s = Ok (tt, s') ->
  well_granted this s -> well_granted this s'.
Proof.
  induction pending as [|o pending IH]; intros s s'; cbn [batch_effect].
  - by intros [= <-].
  - destruct (hasSalary_at s o); [|done]; cbn [negb].
    destruct (sender =? o); [done|].
    destruct (performed_at s sender o); [by apply IH|].
    intros Hrun Hw. eapply IH; [exact Hrun|]. by apply well_granted_record_comparison.
Qed.

Lemma well_granted_exec s tx :
  well_granted this s -> well_granted this (exec this s tx).
Proof.
  intros Hw.
  destruct (exec_cases s tx) as [(v & s' & Hd & -> & _) | (e & _ & -> & _)]; [|done].
  apply dispatch_inv in Hd
    as [-> | [(h & ev & ->) | [(o & _ & _ & _ & _ & _ & _ & ->) | (os & _ & _ & _ & Hb)]]].
  - done.
  - by apply well_granted_store_salary.
  - by apply well_granted_record_comparison.
  - by eapply well_granted_batch_effect.
Qed.

Lemma well_granted_run txs : forall s,
  well_granted this s -> well_granted this (run this s txs).
Proof.
  induction txs as [|tx txs IH]; intros s Hw; [done|].
  apply IH. by apply well_granted_exec.
Qed.

End Transactions.

(** ** The external functions, one transaction at a time *)

Section Functions.

Context {engine : Engine}.
Variable this : address.
Implicit Types (s : State) (a b o : address) (tx : Tx).

Lemma transact_returning {A} (f : A -> Value) (m : M A) s :
  transact (returning f m) s
  = match m s with
    | Ok (a, s') => (s', Ok (f a))
    | Reverted e => (s, Reverted e)
    end.
Proof.
  unfold transact, returning, bind, ret. by destruct (m s) as [[a s']|e].
Qed.

Lemma outcome_hasComparison s viewer ts a b :
  outcome this s (mkTx viewer ts (CallHasComparison a b)) = Ok (VBool (performed_at s a b)).
Proof. reflexivity. Qed.

Lemma transact_compareSalaries s A ts B :
  transact (dispatch this A ts (CallCompareSalaries B)) s
  = if A =? B
    then (s, Reverted (Error "Cannot compare salary with yourself"))
    else if negb (hasSalary_at s A)
    then (s, Reverted (Error "You have not submitted a salary yet"))
    else if negb (hasSalary_at s B)
    then (s, Reverted (Error "The other user has not submitted a salary yet"))
    else if performed_at s A B
    then (s, Reverted (Error "Comparison already performed between these users"))
    else (record_comparison this A ts B s, Ok VUnit).
Proof.
  cbn [dispatch]. rewrite transact_returning, compareSalaries_run.
  destruct (A =? B); [done|]. destruct (hasSalary_at s A); [|done]; cbn [negb].
  destruct (hasSalary_at s B); [|done]; cbn [negb].
  by destruct (performed_at s A B).
Qed.

Lemma transact_batchCompareSalaries s A ts os :
  transact (dispatch this A ts (CallBatchCompareSalaries os)) s
  = if negb (hasSalary_at s A)
    then (s, Reverted (Error "You have not submitted a salary yet"))
    else if negb (0 <? N.of_nat (length os))
    then (s, Reverted (Error "Must provide at least one user to compare with"))
    else if negb (N.of_nat (length os) <=? MAX_BATCH_SIZE)
    then (s, Reverted (Error "Cannot compare with more than 10 users at once"))
    else match batch_effect this A ts os s with
         | Ok (_, s') => (s', Ok VUnit)
         | Reverted e => (s, Reverted e)
         end.
Proof.
  cbn [dispatch]. rewrite transact_returning, batchCompareSalaries_run.
  destruct (hasSalary_at s A); [|done]; cbn [negb].
  destruct (0 <? N.of_nat (length os)); [|done]; cbn [negb].
  by destruct (N.of_nat (length os) <=? MAX_BATCH_SIZE).
Qed.

Lemma transact_batch_within_cap s A ts os :
  hasSalary_at s A = true -> (0 < length os <= 10)%nat ->
  transact (dispatch this A ts (CallBatchCompareSalaries os)) s
  = match batch_effect this A ts os s with
    | Ok (_, s') => (s', Ok VUnit)
    | Reverted e => (s, Reverted e)
    end.
Proof.
  intros HA [Hlo Hhi]. rewrite transact_batchCompareSalaries, HA; cbn [negb].
  assert (H0 : (0 <? N.of_nat (length os)) = true) by (apply N.ltb_lt; lia).
  assert (H1 : (N.of_nat (length os) <=? MAX_BATCH_SIZE) = true).
  { apply N.leb_le. unfold MAX_BATCH_SIZE. lia. }
  by rewrite H0, H1.
Qed.

(** The loop stops at the first entry without a salary when the entries
    before it are in order. *)
Lemma batch_effect_missing sender ts pre D post : forall s,
  (forall o, o ∈ pre -> hasSalary_at s o = true /\ o <> sender) ->
  hasSalary_at s D = false ->
  batch_effect this sender ts (pre ++ D :: post) s
  = Reverted (Error "One of the other users has not submitted a salary yet").
Proof.
  induction pre as [|o pre IH]; intros s Hall HD; cbn [app batch_effect].
  - by rewrite HD.
  - destruct (Hall o) as [Ho Hne]; [by left|]. rewrite Ho; cbn [negb].
    destruct (N.eqb_spec sender o) as [|_]; [congruence|].
    destruct (performed_at s sender o); apply IH; try done;
      intros u Hu; apply Hall; by right.
Qed.

(** An entry equal to the caller stops the loop with its own message, so a
    batch that starts with the caller fails as a self-comparison. *)
Lemma batch_self_entry_rejected s A ts post :
  hasSalary_at s A = true -> (length post < 10)%nat ->
  fails_with (outcome this s (mkTx A ts (CallBatchCompareSalaries (A :: post))))
    SelfComparison.
Proof.
  intros HA Hlen. unfold outcome; cbn [tx_sender tx_timestamp tx_call].
  rewrite transact_batch_within_cap by (done || (cbn [length]; lia)).
  cbn [batch_effect]. rewrite HA, N.eqb_refl; cbn [negb snd].
  eexists; split; reflexivity.
Qed.

(** The batch never reverts with the message of its duplicate scan. *)
Lemma batch_never_reports_duplicate s A ts os :
  ~ fails_with (outcome this s (mkTx A ts (CallBatchCompareSalaries os))) DuplicateInBatch.
Proof.
  unfold outcome; cbn [tx_sender tx_timestamp tx_call].
  rewrite transact_batchCompareSalaries.
  intros (e & He & Hk). revert He.
  destruct (hasSalary_at s A); cbn [negb]; [|intros [= <-]; done].
  destruct (0 <? N.of_nat (length os)); cbn [negb]; [|intros [= <-]; done].
  destruct (N.of_nat (length os) <=? MAX_BATCH_SIZE); cbn [negb]; [|intros [= <-]; done].
  destruct (batch_effect this A ts os s) as [[[] s']|e'] eqn:Hb; [done|].
  cbn [snd]. intros [= <-].
  apply batch_effect_reverts in Hb as [-> | ->]; done.
Qed.

End Functions.

(** * The claims *)

Section Claims.

Context {engine : Engine}.
Variable this : address.
Implicit Types (s : State) (A B C D viewer : address) (tx : Tx) (ts : uint256).

(** C1 (amended): when A, B and C have a salary, D has none and A is neither
    B nor C, the batch of A over [B, C, D] fails with NotFound and the whole
    call is reverted: the state after the call is the state before it, so
    [hasComparison] answers for (A,B) and (A,C) exactly what it answered
    before the call, and the records the loop wrote for B and C are gone. *)
Theorem batch_missing_salary_reverts_whole_call s A B C D ts viewer ts' :
  hasSalary_at s A = true -> hasSalary_at s B = true ->
  hasSalary_at s C = true -> hasSalary_at s D = false ->
  A <> B -> A <> C ->
  fails_with (outcome this s (mkTx A ts (CallBatchCompareSalaries [B; C; D]))) NotFound
  /\ exec this s (mkTx A ts (CallBatchCompareSalaries [B; C; D])) = s
  /\ outcome this (exec this s (mkTx A ts (CallBatchCompareSalaries [B; C; D])))
       (mkTx viewer ts' (CallHasComparison A B))
     = outcome this s (mkTx viewer ts' (CallHasComparison A B))
  /\ outcome this (exec this s (mkTx A ts (CallBatchCompareSalaries [B; C; D])))
       (mkTx viewer ts' (CallHasComparison A C))
     = outcome this s (mkTx viewer ts' (CallHasComparison A C)).
Proof.
  intros HA HB HC HD HAB HAC.
  assert (Hrun : batch_effect this A ts [B; C; D] s
    = Reverted (Error "One of the other users has not submitted a salary yet")).
  { apply (batch_effect_missing this A ts [B; C] D []); [|done].
    intros o [->|[->|[]%elem_of_nil]%elem_of_cons]%elem_of_cons; done. }
  assert (Hexec : exec this s (mkTx A ts (CallBatchCompareSalaries [B; C; D])) = s).
  { unfold exec; cbn [tx_sender tx_timestamp tx_call].
    by rewrite transact_batch_within_cap, Hrun by (done || (cbn; lia)). }
  rewrite Hexec. repeat split.
  unfold outcome; cbn [tx_sender tx_timestamp tx_call].
  rewrite transact_batch_within_cap, Hrun by (done || (cbn; lia)). cbn [snd].
  eexists; split; reflexivity.
Qed.

(** C2: with A and B distinct, both with a salary and no record for (A,B),
    the batch of A over [B, B] goes through and records (A,B): the second B
    is skipped as already compared, and the duplicate scan never sees it. *)
Theorem batch_duplicate_entry_accepted s A B ts viewer ts' :
  A <> B -> hasSalary_at s A = true -> hasSalary_at s B = true ->
  performed_at s A B = false ->
  outcome this s (mkTx A ts (CallBatchCompareSalaries [B; B])) = Ok VUnit
  /\ outcome this (exec this s (mkTx A ts (CallBatchCompareSalaries [B; B])))
       (mkTx viewer ts' (CallHasComparison A B)) = Ok (VBool true).
Proof.
  intros HAB HA HB Hnew.
  assert (Hrun : batch_effect this A ts [B; B] s
    = Ok (tt, record_comparison this A ts B s)).
  { cbn [batch_effect]. rewrite HB, Hnew; cbn [negb].
    destruct (N.eqb_spec A B) as [|_]; [done|].
    rewrite hasSalary_at_record_comparison, HB; cbn [negb].
    rewrite performed_at_record_comparison. by case_decide. }
  rewrite outcome_hasComparison.
  unfold outcome, exec; cbn [tx_sender tx_timestamp tx_call].
  rewrite transact_batch_within_cap, Hrun by (done || (cbn; lia)). cbn [fst snd].
  split; [reflexivity|].
  rewrite performed_at_record_comparison. by case_decide.
Qed.

(** C3 (amended): for every caller A that has a salary, the batch fails
    with EmptyBatch on the empty sequence and fails with BatchTooLarge on
    every sequence of more than 10 entries; and it goes through on every
    sequence of exactly 10 distinct entries that all have a salary, are not A
    and have no record with A yet, leaving a record for each of them. *)
Theorem batch_size_bounds s A ts :
  hasSalary_at s A = true ->
  fails_with (outcome this s (mkTx A ts (CallBatchCompareSalaries []))) EmptyBatch
  /\ (forall os_big : list address, (10 < length os_big)%nat ->
      fails_with (outcome this s (mkTx A ts (CallBatchCompareSalaries os_big)))
        BatchTooLarge)
  /\ (forall os10 : list address,
      length os10 = 10%nat -> NoDup os10 ->
      Forall (fun o => hasSalary_at s o = true /\ o <> A
                       /\ performed_at s A o = false) os10 ->
      outcome this s (mkTx A ts (CallBatchCompareSalaries os10)) = Ok VUnit
      /\ Forall (fun o =>
           performed_at (exec this s (mkTx A ts (CallBatchCompareSalaries os10))) A o
           = true) os10).
Proof.
  intros HA.
  unfold outcome, exec; cbn [tx_sender tx_timestamp tx_call].
  split; [|split].
  - rewrite transact_batchCompareSalaries, HA; cbn [negb].
    eexists; split; reflexivity.
  - intros os_big Hbig.
    rewrite transact_batchCompareSalaries, HA; cbn [negb].
    assert (H0 : (0 <? N.of_nat (length os_big)) = true) by (apply N.ltb_lt; lia).
    assert (H1 : (N.of_nat (length os_big) <=? MAX_BATCH_SIZE) = false).
    { apply N.leb_gt. unfold MAX_BATCH_SIZE. lia. }
    rewrite H0, H1. eexists; split; reflexivity.
  - intros os10 Hlen _ Hall.
    destruct (batch_effect_succeeds this A ts os10 s) as [s' Hs'].
    { intros o Ho. rewrite Forall_forall in Hall. by destruct (Hall o Ho) as (? & ? & ?). }
    rewrite transact_batch_within_cap, Hs' by (done || lia).
    split; [reflexivity|].
    apply Forall_forall. intros o Ho. cbn [fst].
    by eapply batch_effect_all_recorded.
Qed.

(** C4: for A and B distinct, both with a salary and no record for either
    ordered pair, the first compare of A with B goes through and adds the one
    record (A,B) to the ledger: the flag and the result, the handle the
    engine made from the salaries of A and of B, are filed under the key
    (A,B) and nothing is filed under (B,A), so [getComparisonResult] returns
    that handle for (A,B) and fails with NotFound for (B,A).  A second
    compare of A with B fails with AlreadyPerformed and changes nothing; and
    the compare of B with A then goes through and adds the record (B,A),
    with its own result. *)
Theorem compare_once_per_ordered_pair s A B t1 t2 t3 :
  A <> B -> hasSalary_at s A = true -> hasSalary_at s B = true ->
  performed_at s A B = false -> performed_at s B A = false ->
  let s1 := exec this s (mkTx A t1 (CallCompareSalaries B)) in
  let s2 := exec this s1 (mkTx A t2 (CallCompareSalaries B)) in
  let s3 := exec this s2 (mkTx B t3 (CallCompareSalaries A)) in
  outcome this s (mkTx A t1 (CallCompareSalaries B)) = Ok VUnit
  /\ comparisonPerformed s1 = <[(A, B) := true]> (comparisonPerformed s)
  /\ comparisonResults s1
     = <[(A, B) := engine_gt (salary_at s A) (salary_at s B)]> (comparisonResults s)
  /\ performed_at s1 A B = true /\ performed_at s1 B A = false
  /\ outcome this s1 (mkTx A t2 (CallGetComparisonResult A B))
     = Ok (VHandle (engine_gt (salary_at s A) (salary_at s B)))
  /\ fails_with (outcome this s1 (mkTx A t2 (CallGetComparisonResult B A))) NotFound
  /\ fails_with (outcome this s1 (mkTx A t2 (CallCompareSalaries B))) AlreadyPerformed
  /\ s2 = s1
  /\ outcome this s2 (mkTx B t3 (CallCompareSalaries A)) = Ok VUnit
  /\ comparisonPerformed s3 = <[(B, A) := true]> (comparisonPerformed s1)
  /\ comparisonResults s3
     = <[(B, A) := engine_gt (salary_at s B) (salary_at s A)]> (comparisonResults s1)
  /\ performed_at s3 B A = true /\ performed_at s3 A B = true
  /\ result_at s3 A B = engine_gt (salary_at s A) (salary_at s B)
  /\ result_at s3 B A = engine_gt (salary_at s B) (salary_at s A).
Proof.
  intros HAB HA HB Hab Hba.
  assert (E1 : transact (dispatch this A t1 (CallCompareSalaries B)) s
               = (record_comparison this A t1 B s, Ok VUnit)).
  { rewrite transact_compareSalaries, HA, HB, Hab.
    by destruct (N.eqb_spec A B). }
  set (r1 := record_comparison this A t1 B s) in *.
  assert (Hab1 : performed_at r1 A B = true).
  { unfold r1. rewrite performed_at_record_comparison. by case_decide. }
  assert (Hba1 : performed_at r1 B A = false).
  { unfold r1. rewrite performed_at_record_comparison.
    case_decide as E; [inversion E; congruence | done]. }
  assert (Hres1 : result_at r1 A B = engine_gt (salary_at s A) (salary_at s B)).
  { unfold r1. rewrite result_at_record_comparison. by case_decide. }
  assert (E2 : transact (dispatch this A t2 (CallCompareSalaries B)) r1
               = (r1, Reverted (Error "Comparison already performed between these users"))).
  { rewrite transact_compareSalaries, Hab1.
    change (hasSalary_at r1 A) with (hasSalary_at s A).
    change (hasSalary_at r1 B) with (hasSalary_at s B). rewrite HA, HB.
    by destruct (N.eqb_spec A B). }
  assert (E3 : transact (dispatch this B t3 (CallCompareSalaries A)) r1
               = (record_comparison this B t3 A r1, Ok VUnit)).
  { rewrite transact_compareSalaries, Hba1.
    change (hasSalary_at r1 A) with (hasSalary_at s A).
    change (hasSalary_at r1 B) with (hasSalary_at s B). rewrite HA, HB.
    destruct (N.eqb_spec B A); [congruence | done]. }
  assert (G1 : transact (dispatch this A t2 (CallGetComparisonResult A B)) r1
               = (r1, Ok (VHandle (engine_gt (salary_at s A) (salary_at s B))))).
  { cbn [dispatch]. rewrite transact_returning, getComparisonResult_run.
    by rewrite N.eqb_refl, Hab1, Hres1. }
  assert (G2 : transact (dispatch this A t2 (CallGetComparisonResult B A)) r1
               = (r1, Reverted (Error "Comparison has not been performed yet"))).
  { cbn [dispatch]. rewrite transact_returning, getComparisonResult_run.
    by rewrite N.eqb_refl, orb_true_r, Hba1. }
  unfold outcome, exec; cbn [tx_sender tx_timestamp tx_call].
  rewrite E1; cbn [fst snd]. rewrite E2, G1, G2; cbn [fst snd]. rewrite E3; cbn [fst snd].
  repeat split; try done.
  - eexists; split; reflexivity.
  - eexists; split; reflexivity.
  - rewrite performed_at_record_comparison. by case_decide.
  - rewrite performed_at_record_comparison. by case_decide.
  - rewrite result_at_record_comparison.
    case_decide as E; [inversion E; congruence | exact Hres1].
  - rewrite result_at_record_comparison. by case_decide.
Qed.

(** C5: in every state, whether or not A has a salary, the compare of A with
    A fails with SelfComparison, on the first [require] of the function, and
    changes nothing. *)
Theorem self_comparison_rejected s A ts :
  outcome this s (mkTx A ts (CallCompareSalaries A))
  = Reverted (Error "Cannot compare salary with yourself")
  /\ fails_with (outcome this s (mkTx A ts (CallCompareSalaries A))) SelfComparison
  /\ exec this s (mkTx A ts (CallCompareSalaries A)) = s.
Proof.
  unfold outcome, exec; cbn [tx_sender tx_timestamp tx_call].
  rewrite transact_compareSalaries, N.eqb_refl; cbn [fst snd].
  repeat split. eexists; split; reflexivity.
Qed.

(** C6: [getComparisonResult] fails with Unauthorized for a viewer that is
    neither [user1] nor [user2], whatever the ledger holds for the pair; and
    for a viewer that is one of the two it fails with NotFound when the
    ordered pair ([user1], [user2]) has no record, whatever the ledger holds
    for ([user2], [user1]). *)
Theorem get_comparison_checks s viewer user1 user2 ts :
  (viewer <> user1 -> viewer <> user2 ->
   fails_with (outcome this s (mkTx viewer ts (CallGetComparisonResult user1 user2)))
     Unauthorized)
  /\ (viewer = user1 \/ viewer = user2 ->
      performed_at s user1 user2 = false ->
      fails_with (outcome this s (mkTx viewer ts (CallGetComparisonResult user1 user2)))
        NotFound).
Proof.
  unfold outcome; cbn [tx_sender tx_timestamp tx_call dispatch].
  rewrite transact_returning, getComparisonResult_run.
  split.
  - intros H1 H2.
    destruct (N.eqb_spec viewer user1) as [|_]; [done|].
    destruct (N.eqb_spec viewer user2) as [|_]; [done|].
    eexists; split; reflexivity.
  - intros Hv Hp. rewrite Hp.
    assert (E : (viewer =? user1) || (viewer =? user2) = true).
    { destruct Hv as [-> | ->]; rewrite N.eqb_refl; [done | apply orb_true_r]. }
    rewrite E. eexists; split; reflexivity.
Qed.

(** C7: once [submitSalary] by A has gone through, [hasSalary] of A is true
    and stays true after every further sequence of transactions, and
    [getMySalary] called by A returns a handle in each of these states. *)
Theorem presence_is_permanent s A ts x p :
  outcome this s (mkTx A ts (CallSubmitSalary x p)) = Ok VUnit ->
  forall txs ts',
    let s' := run this (exec this s (mkTx A ts (CallSubmitSalary x p))) txs in
    hasSalary_at s' A = true
    /\ outcome this s' (mkTx A ts' (CallHasSalary A)) = Ok (VBool true)
    /\ exists h, outcome this s' (mkTx A ts' CallGetMySalary) = Ok (VHandle h).
Proof.
  intros Hok txs ts' s'.
  assert (H1 : hasSalary_at (exec this s (mkTx A ts (CallSubmitSalary x p))) A = true).
  { revert Hok. unfold outcome, exec; cbn [tx_sender tx_timestamp tx_call dispatch].
    rewrite transact_returning, submitSalary_run.
    destruct (engine_fromExternal x p); [|done]. intros _. cbn [fst].
    rewrite hasSalary_at_store_salary. by case_decide. }
  assert (H' : hasSalary_at s' A = true).
  { by apply (ext_hasSalary _ _ (run_extends this txs _)). }
  split; [done|]. split.
  - unfold outcome; cbn [tx_sender tx_timestamp tx_call dispatch].
    rewrite transact_returning. unfold read. cbn [snd]. by rewrite H'.
  - exists (salary_at s' A).
    unfold outcome; cbn [tx_sender tx_timestamp tx_call dispatch].
    by rewrite transact_returning, getMySalary_run, H'.
Qed.

(** C8: a record of the ordered pair (A,B) survives every sequence of
    transactions with the result it was created with; and a transaction that
    takes the pair from no record to a record is a call by A, of
    [compareSalaries] on B or of [batchCompareSalaries] on a batch that has
    B, that went through from a state where A is not B and both have a
    salary. *)
Theorem pair_record_is_write_once s A B :
  (forall txs, performed_at s A B = true ->
     performed_at (run this s txs) A B = true
     /\ result_at (run this s txs) A B = result_at s A B)
  /\ (forall tx, performed_at s A B = false ->
       performed_at (exec this s tx) A B = true ->
       tx_sender tx = A /\ A <> B
       /\ hasSalary_at s A = true /\ hasSalary_at s B = true
       /\ outcome this s tx = Ok VUnit
       /\ (tx_call tx = CallCompareSalaries B
           \/ exists os, tx_call tx = CallBatchCompareSalaries os /\ B ∈ os)).
Proof.
  split.
  - intros txs Hp. by apply (ext_performed _ _ (run_extends this txs s)).
  - intros tx Hold Hnew.
    destruct (exec_cases this s tx) as [(v & s' & Hd & Hs' & Ho) | (e & _ & Hs' & _)];
      rewrite Hs' in Hnew; [|congruence].
    rewrite Ho.
    apply dispatch_inv in Hd
      as [-> | [(h & ev & ->) | [(o & Hc & -> & Hne & HsA & HsO & _ & ->)
                                | (os & Hc & -> & HsA & Hb)]]].
    + congruence.
    + rewrite performed_at_store_salary in Hnew. congruence.
    + rewrite performed_at_record_comparison in Hnew.
      case_decide as E; [|congruence]. inversion E; subst.
      repeat split; try done. by left.
    + destruct (batch_effect_new_record this _ _ _ _ _ _ _ Hb Hold Hnew)
        as (HA & Hin & Hab & HB).
      subst A. repeat split; try done. right. by exists os.
Qed.

(** C9: in every reachable state each stored salary handle is granted to
    its owner and to the contract, and each stored comparison result is
    granted to the requester, to the target and to the contract; and no
    transaction takes a grant away. *)
Theorem grants_invariant s :
  reachable this s ->
  well_granted this s
  /\ (forall tx, acl s ⊆ acl (exec this s tx))
  /\ (forall txs, acl s ⊆ acl (run this s txs)).
Proof.
  intros [txs ->]. split; [|split].
  - apply well_granted_run, well_granted_init.
  - intros tx. apply (ext_acl _ _ (exec_extends this _ tx)).
  - intros txs'. apply (ext_acl _ _ (run_extends this txs' _)).
Qed.

(** C10: in every state [getContractInfo] returns the version 1.0.0 with
    both counts 0, and changes nothing: the counts are local constants of the
    function, not read from storage. *)
Theorem contract_info_is_placeholder s viewer ts :
  getContractInfo s = Ok (("1.0.0", 0, 0), s)
  /\ outcome this s (mkTx viewer ts CallGetContractInfo) = Ok (VInfo "1.0.0" 0 0)
  /\ exec this s (mkTx viewer ts CallGetContractInfo) = s.
Proof. repeat split. Qed.

End Claims.

(** * The claims on concrete states *)

Section Concrete.

Import Demo.

(** The hypotheses of C1 hold in [three_salaries] for A = 1 and the batch
    [2, 3, 4]; the call fails and leaves no record behind. *)
Lemma batch_missing_salary_reverts_whole_call_witness :
  fails_with (outcome (engine := demo_engine) contract three_salaries
                (mkTx 1 5 (CallBatchCompareSalaries [2; 3; 4]))) NotFound
  /\ exec (engine := demo_engine) contract three_salaries
       (mkTx 1 5 (CallBatchCompareSalaries [2; 3; 4])) = three_salaries
  /\ outcome (engine := demo_engine) contract
       (exec (engine := demo_engine) contract three_salaries
          (mkTx 1 5 (CallBatchCompareSalaries [2; 3; 4])))
       (mkTx 1 6 (CallHasComparison 1 2))
     = outcome (engine := demo_engine) contract three_salaries
         (mkTx 1 6 (CallHasComparison 1 2))
  /\ outcome (engine := demo_engine) contract
       (exec (engine := demo_engine) contract three_salaries
          (mkTx 1 5 (CallBatchCompareSalaries [2; 3; 4])))
       (mkTx 1 6 (CallHasComparison 1 3))
     = outcome (engine := demo_engine) contract three_salaries
         (mkTx 1 6 (CallHasComparison 1 3)).
Proof.
  apply (batch_missing_salary_reverts_whole_call (engine := demo_engine)
           contract three_salaries 1 2 3 4 5 1 6); by vm_compute.
Defined.

(** C1 as stated fails: A = 1, B = 2 and C = 3 have a salary, D = 4 has
    none, the batch of 1 over [2, 3, 4] fails, and afterwards
    [hasComparison] answers false for (1,2) and for (1,3). *)
Lemma batch_partial_progress_counterexample :
  hasSalary_at three_salaries 1 = true /\ hasSalary_at three_salaries 2 = true
  /\ hasSalary_at three_salaries 3 = true /\ hasSalary_at three_salaries 4 = false
  /\ outcome (engine := demo_engine) contract three_salaries
       (mkTx 1 5 (CallBatchCompareSalaries [2; 3; 4]))
     = Reverted (Error "One of the other users has not submitted a salary yet")
  /\ outcome (engine := demo_engine) contract
       (exec (engine := demo_engine) contract three_salaries
          (mkTx 1 5 (CallBatchCompareSalaries [2; 3; 4])))
       (mkTx 1 6 (CallHasComparison 1 2)) = Ok (VBool false)
  /\ outcome (engine := demo_engine) contract
       (exec (engine := demo_engine) contract three_salaries
          (mkTx 1 5 (CallBatchCompareSalaries [2; 3; 4])))
       (mkTx 1 6 (CallHasComparison 1 3)) = Ok (VBool false)
  /\ ~ (fails_with (outcome (engine := demo_engine) contract three_salaries
                      (mkTx 1 5 (CallBatchCompareSalaries [2; 3; 4]))) NotFound
        /\ outcome (engine := demo_engine) contract
             (exec (engine := demo_engine) contract three_salaries
                (mkTx 1 5 (CallBatchCompareSalaries [2; 3; 4])))
             (mkTx 1 6 (CallHasComparison 1 2)) = Ok (VBool true)
        /\ outcome (engine := demo_engine) contract
             (exec (engine := demo_engine) contract three_salaries
                (mkTx 1 5 (CallBatchCompareSalaries [2; 3; 4])))
             (mkTx 1 6 (CallHasComparison 1 3)) = Ok (VBool true)).
Proof.
  repeat split; try (vm_compute; reflexivity).
  intros (_ & H & _). vm_compute in H. discriminate H.
Qed.

(** The failing input of C2: the batch of 1 over [2, 2] in
    [three_salaries] goes through and leaves the record (1,2). *)
Lemma batch_duplicate_entry_accepted_witness :
  outcome (engine := demo_engine) contract three_salaries
    (mkTx 1 5 (CallBatchCompareSalaries [2; 2])) = Ok VUnit
  /\ outcome (engine := demo_engine) contract
       (exec (engine := demo_engine) contract three_salaries
          (mkTx 1 5 (CallBatchCompareSalaries [2; 2])))
       (mkTx 1 6 (CallHasComparison 1 2)) = Ok (VBool true).
Proof.
  apply (batch_duplicate_entry_accepted (engine := demo_engine)
           contract three_salaries 1 2 5 1 6); by vm_compute.
Defined.

(** C3 as stated fails for a caller without a salary: in the initial state
    the empty batch fails with NotFound, not with EmptyBatch. *)
Lemma batch_empty_counterexample :
  hasSalary_at init 7 = false
  /\ outcome (engine := demo_engine) contract init
       (mkTx 7 0 (CallBatchCompareSalaries []))
     = Reverted (Error "You have not submitted a salary yet")
  /\ ~ fails_with (outcome (engine := demo_engine) contract init
                     (mkTx 7 0 (CallBatchCompareSalaries []))) EmptyBatch.
Proof.
  repeat split; try (vm_compute; reflexivity).
  intros (e & He & Hk). vm_compute in He. injection He as <-.
  vm_compute in Hk. discriminate Hk.
Qed.

Lemma batch_size_bounds_witness :
  fails_with (outcome (engine := demo_engine) contract three_salaries
                (mkTx 1 5 (CallBatchCompareSalaries []))) EmptyBatch
  /\ fails_with (outcome (engine := demo_engine) contract three_salaries
                   (mkTx 1 5 (CallBatchCompareSalaries eleven_targets))) BatchTooLarge
  /\ outcome (engine := demo_engine) contract eleven_salaries
       (mkTx 1 5 (CallBatchCompareSalaries ten_targets)) = Ok VUnit
  /\ Forall (fun o =>
       performed_at (exec (engine := demo_engine) contract eleven_salaries
                       (mkTx 1 5 (CallBatchCompareSalaries ten_targets))) 1 o = true)
       ten_targets.
Proof.
  assert (H3 : hasSalary_at three_salaries 1 = true) by (by vm_compute).
  assert (H11 : hasSalary_at eleven_salaries 1 = true) by (by vm_compute).
  destruct (batch_size_bounds (engine := demo_engine) contract three_salaries 1 5 H3)
    as (Hempty & Hbig & _).
  destruct (batch_size_bounds (engine := demo_engine) contract eleven_salaries 1 5 H11)
    as (_ & _ & Hten).
  split; [exact Hempty|]. split.
  - apply Hbig. cbn; lia.
  - apply Hten.
    + reflexivity.
    + refine (bool_decide_unpack (NoDup ten_targets) _). by vm_compute.
    + unfold ten_targets. repeat (constructor; [by vm_compute|]). constructor.
Defined.

Lemma compare_once_per_ordered_pair_witness :
  let s1 := exec (engine := demo_engine) contract three_salaries
              (mkTx 1 5 (CallCompareSalaries 2)) in
  let s3 := exec (engine := demo_engine) contract s1 (mkTx 2 7 (CallCompareSalaries 1)) in
  outcome (engine := demo_engine) contract three_salaries
    (mkTx 1 5 (CallCompareSalaries 2)) = Ok VUnit
  /\ performed_at s1 1 2 = true /\ performed_at s1 2 1 = false
  /\ comparisonResults s1 = <[(1, 2) := 2112]> (comparisonResults three_salaries)
  /\ outcome (engine := demo_engine) contract s1 (mkTx 1 6 (CallGetComparisonResult 1 2))
     = Ok (VHandle 2112)
  /\ fails_with (outcome (engine := demo_engine) contract s1
                   (mkTx 1 6 (CallGetComparisonResult 2 1))) NotFound
  /\ fails_with (outcome (engine := demo_engine) contract s1
                   (mkTx 1 6 (CallCompareSalaries 2))) AlreadyPerformed
  /\ exec (engine := demo_engine) contract s1 (mkTx 1 6 (CallCompareSalaries 2)) = s1
  /\ performed_at s3 2 1 = true /\ performed_at s3 1 2 = true
  /\ result_at s3 1 2 = 2112 /\ result_at s3 2 1 = 2211.
Proof.
  assert (Hne : (1 : N) <> 2) by done.
  assert (H1s : hasSalary_at three_salaries 1 = true) by (by vm_compute).
  assert (H2s : hasSalary_at three_salaries 2 = true) by (by vm_compute).
  assert (H12 : performed_at three_salaries 1 2 = false) by (by vm_compute).
  assert (H21 : performed_at three_salaries 2 1 = false) by (by vm_compute).
  destruct (compare_once_per_ordered_pair (engine := demo_engine)
              contract three_salaries 1 2 5 6 7 Hne H1s H2s H12 H21)
    as (H1 & _ & Hres & H3 & H4 & Hget & Hnone & H5 & H6 & _ & _ & _ & H9 & H10
        & Hr12 & Hr21).
  cbv zeta. rewrite H6 in H9, H10, Hr12, Hr21. by repeat split.
Defined.

Lemma get_comparison_checks_witness :
  performed_at compared_2_1 2 1 = true
  /\ fails_with (outcome (engine := demo_engine) contract compared_2_1
                   (mkTx 3 9 (CallGetComparisonResult 2 1))) Unauthorized
  /\ performed_at compared_2_1 1 2 = false
  /\ fails_with (outcome (engine := demo_engine) contract compared_2_1
                   (mkTx 1 9 (CallGetComparisonResult 1 2))) NotFound.
Proof.
  split; [by vm_compute|]. split.
  - apply (get_comparison_checks (engine := demo_engine) contract compared_2_1 3 2 1 9);
      by vm_compute.
  - split; [by vm_compute|].
    apply (get_comparison_checks (engine := demo_engine) contract compared_2_1 1 1 2 9);
      [by left | by vm_compute].
Defined.

Lemma presence_is_permanent_witness :
  outcome (engine := demo_engine) contract init (mkTx 1 0 (CallSubmitSalary 11 proof1))
  = Ok VUnit
  /\ (let s' := run (engine := demo_engine) contract
                  (exec (engine := demo_engine) contract init
                     (mkTx 1 0 (CallSubmitSalary 11 proof1)))
                  [submit 2 12; mkTx 1 3 (CallUpdateSalary 21 proof1);
                   mkTx 1 4 (CallCompareSalaries 2); mkTx 1 5 (CallUpdateSalary 0 []);
                   mkTx 2 6 (CallBatchCompareSalaries [1; 1])] in
      hasSalary_at s' 1 = true
      /\ outcome (engine := demo_engine) contract s' (mkTx 1 9 (CallHasSalary 1))
         = Ok (VBool true)
      /\ exists h, outcome (engine := demo_engine) contract s' (mkTx 1 9 CallGetMySalary)
                   = Ok (VHandle h)).
Proof.
  assert (H : outcome (engine := demo_engine) contract init
                (mkTx 1 0 (CallSubmitSalary 11 proof1)) = Ok VUnit) by (by vm_compute).
  split; [exact H|].
  exact (presence_is_permanent (engine := demo_engine) contract init 1 0 11 proof1 H
           [submit 2 12; mkTx 1 3 (CallUpdateSalary 21 proof1);
            mkTx 1 4 (CallCompareSalaries 2); mkTx 1 5 (CallUpdateSalary 0 []);
            mkTx 2 6 (CallBatchCompareSalaries [1; 1])] 9).
Defined.

Lemma pair_record_is_write_once_witness :
  (performed_at compared_2_1 2 1 = true
   /\ performed_at
        (run (engine := demo_engine) contract compared_2_1
           [mkTx 2 3 (CallUpdateSalary 52 proof1); mkTx 1 4 (CallUpdateSalary 51 proof1);
            mkTx 2 5 (CallBatchCompareSalaries [1; 3])]) 2 1 = true
   /\ result_at
        (run (engine := demo_engine) contract compared_2_1
           [mkTx 2 3 (CallUpdateSalary 52 proof1); mkTx 1 4 (CallUpdateSalary 51 proof1);
            mkTx 2 5 (CallBatchCompareSalaries [1; 3])]) 2 1
      = result_at compared_2_1 2 1)
  /\ (performed_at three_salaries 1 2 = false
      /\ performed_at
           (exec (engine := demo_engine) contract three_salaries
              (mkTx 1 5 (CallBatchCompareSalaries [3; 2]))) 1 2 = true
      /\ hasSalary_at three_salaries 1 = true /\ hasSalary_at three_salaries 2 = true
      /\ outcome (engine := demo_engine) contract three_salaries
           (mkTx 1 5 (CallBatchCompareSalaries [3; 2])) = Ok VUnit).
Proof.
  assert (Hrec : performed_at compared_2_1 2 1 = true) by (by vm_compute).
  assert (Hold : performed_at three_salaries 1 2 = false) by (by vm_compute).
  assert (Hnew : performed_at
           (exec (engine := demo_engine) contract three_salaries
              (mkTx 1 5 (CallBatchCompareSalaries [3; 2]))) 1 2 = true) by (by vm_compute).
  split.
  - split; [exact Hrec|].
    exact (proj1 (pair_record_is_write_once (engine := demo_engine) contract
                    compared_2_1 2 1) _ Hrec).
  - destruct (proj2 (pair_record_is_write_once (engine := demo_engine) contract
                       three_salaries 1 2) _ Hold Hnew)
      as (_ & _ & HA & HB & Hok & _).
    by repeat split.
Defined.

Lemma grants_invariant_witness :
  reachable (engine := demo_engine) contract compared_2_1
  /\ well_granted contract compared_2_1
  /\ acl compared_2_1
     ⊆ acl (exec (engine := demo_engine) contract compared_2_1
              (mkTx 1 4 (CallUpdateSalary 51 proof1))).
Proof.
  assert (Hr : reachable (engine := demo_engine) contract compared_2_1).
  { exists [submit 1 11; submit 2 12; submit 3 13; mkTx 2 1 (CallCompareSalaries 1)].
    by vm_compute. }
  destruct (grants_invariant (engine := demo_engine) contract compared_2_1 Hr)
    as (Hw & Hstep & _).
  split; [exact Hr|]. split; [exact Hw | apply Hstep].
Defined.

End Concrete.

(** * Further properties of the contract *)

Import Steps.

(** ** Transactions as sequences of atomic steps *)

Section Atomic.

Context {engine : Engine}.
Variable this : address.
Implicit Types (s : State) (a b o : address) (tx : Tx).

Lemma batch_effect_steps sender ts pending : forall s s',
  hasSalary_at s sender = true ->
  batch_effect this sender ts pending s = Ok (tt, s') ->
  rtc (step this) s s'.
Proof.
  induction pending as [|o pending IH]; intros s s' HA; cbn [batch_effect].
  - intros [= <-]. apply rtc_refl.
  - destruct (hasSalary_at s o) eqn:Ho; [|done]; cbn [negb].
    destruct (N.eqb_spec sender o) as [|Hne]; [done|].
    destruct (performed_at s sender o) eqn:Hp; [by apply IH|].
    intros Hrun. eapply rtc_l; [by apply (step_compare this s sender ts o)|].
    by apply IH.
Qed.

Lemma dispatch_steps sender ts c s v s' :
  dispatch this sender ts c s = Ok (v, s') -> rtc (step this) s s'.
Proof.
  destruct c; unfold dispatch, returning, bind.
  - intros [= _ <-]. apply rtc_refl.
  - intros [= _ <-]. apply rtc_refl.
  - intros [= _ <-]. apply rtc_refl.
  - rewrite submitSalary_run. destruct (engine_fromExternal _ _); [|done].
    intros [= _ <-]. apply rtc_once, step_submit.
  - rewrite getMySalary_run. destruct (hasSalary_at s sender); [|done].
    intros [= _ <-]. apply rtc_refl.
  - rewrite compareSalaries_run.
    destruct (N.eqb_spec sender otherUser) as [|Hne]; [done|].
    destruct (hasSalary_at s sender) eqn:Hs; [|done]; cbn [negb].
    destruct (hasSalary_at s otherUser) eqn:Ho; [|done]; cbn [negb].
    destruct (performed_at s sender otherUser) eqn:Hp; [done|].
    intros [= _ <-]. by apply rtc_once, step_compare.
  - rewrite getComparisonResult_run.
    destruct ((sender =? user1) || (sender =? user2)); [|done].
    destruct (performed_at s user1 user2); [|done].
    intros [= _ <-]. apply rtc_refl.
  - intros [= _ <-]. apply rtc_refl.
  - rewrite updateSalary_run. destruct (hasSalary_at s sender) eqn:Hs; [|done].
    destruct (engine_fromExternal _ _); [|done].
    intros [= _ <-]. by apply rtc_once, step_update.
  - rewrite batchCompareSalaries_run.
    destruct (hasSalary_at s sender) eqn:Hs; [|done]; cbn [negb].
    destruct (0 <? N.of_nat (length otherUsers)); [|done]; cbn [negb].
    destruct (N.of_nat (length otherUsers) <=? MAX_BATCH_SIZE); [|done]; cbn [negb].
    destruct (batch_effect _ _ _ _ _) as [[[] s'']|] eqn:Hb; [|done].
    intros [= _ <-]. by eapply batch_effect_steps.
Qed.

Lemma exec_steps s tx : rtc (step this) s (exec this s tx).
Proof.
  destruct (exec_cases this s tx) as [(v & s' & Hd & -> & _) | (e & _ & -> & _)].
  - by eapply dispatch_steps.
  - apply rtc_refl.
Qed.

Lemma run_steps txs : forall s, rtc (step this) s (run this s txs).
Proof.
  induction txs as [|tx txs IH]; intros s; [apply rtc_refl|].
  etrans; [apply (exec_steps s tx) | apply IH].
Qed.

(** A property of the initial state that every atomic step keeps holds in
    every reachable state. *)
Lemma reachable_invariant (P : State -> Prop) :
  P init ->
  (forall s s', P s -> step this s s' -> P s') ->
  forall s, reachable this s -> P s.
Proof.
  intros Hinit Hstep s [txs ->].
  refine (rtc_ind_r P init Hinit _ _ (run_steps txs init)).
  intros s s' _ Hss' Hs. by eapply Hstep.
Qed.

End Atomic.

(** ** Invariants of the reachable states *)

Section Reachable.

Context {engine : Engine}.
Variable this : address.
Implicit Types (s : State) (a b o : address) (tx : Tx).

Lemma events_store_salary sender h ev s :
  events (store_salary this sender h ev s) = (events s ++ [ev])%list.
Proof. reflexivity. Qed.

Lemma events_record_comparison sender ts o s :
  events (record_comparison this sender ts o s)
  = (events s ++ [SalaryCompared sender o ts])%list.
Proof. reflexivity. Qed.

Lemma step_events s s' : step this s s' -> exists ev, events s' = (events s ++ [ev])%list.
Proof. intros []; by eexists. Qed.

Lemma step_hasSalary s s' a :
  step this s s' -> hasSalary_at s a = true -> hasSalary_at s' a = true.
Proof.
  intros [] Ha; try done; rewrite hasSalary_at_store_salary; by case_decide.
Qed.

(** X12: a comparison record never pairs an account with itself, and both of its
    accounts have submitted a salary. *)
Theorem records_are_well_formed s :
  reachable this s ->
  forall a b, performed_at s a b = true ->
    a <> b /\ hasSalary_at s a = true /\ hasSalary_at s b = true.
Proof.
  revert s. apply (reachable_invariant this (fun s => forall a b,
    performed_at s a b = true ->
    a <> b /\ hasSalary_at s a = true /\ hasSalary_at s b = true)); [done|].
  intros s s' IH Hstep a b.
  assert (Hmono := fun x => step_hasSalary s s' x Hstep).
  destruct Hstep as [s sender ts h | s sender ts h Hs | s sender ts o Hne Hs Ho Hp].
  - rewrite performed_at_store_salary. intros (? & ? & ?)%IH. auto.
  - rewrite performed_at_store_salary. intros (? & ? & ?)%IH. auto.
  - rewrite performed_at_record_comparison.
    case_decide as E; [inversion E; subst; auto|].
    intros (? & ? & ?)%IH. auto.
Qed.

(** X13: whoever holds a grant on a handle is the contract or an account that
    has submitted a salary. *)
Theorem grantees_are_registered s :
  reachable this s ->
  forall h a, (h, a) ∈ acl s -> a = this \/ hasSalary_at s a = true.
Proof.
  revert s. apply (reachable_invariant this (fun s => forall h a,
    (h, a) ∈ acl s -> a = this \/ hasSalary_at s a = true)); [set_solver|].
  intros s s' IH Hstep h a.
  assert (Hmono := fun x => step_hasSalary s s' x Hstep).
  destruct Hstep as [s sender ts h' | s sender ts h' Hs | s sender ts o Hne Hs Ho Hp].
  - rewrite acl_store_salary, hasSalary_at_store_salary.
    intros [[= -> ->]%elem_of_singleton | [[= -> ->]%elem_of_singleton | Hin]%elem_of_union]%elem_of_union.
    + right. by case_decide.
    + by left.
    + destruct (IH _ _ Hin); [by left | right; by case_decide].
  - rewrite acl_store_salary, hasSalary_at_store_salary.
    intros [[= -> ->]%elem_of_singleton | [[= -> ->]%elem_of_singleton | Hin]%elem_of_union]%elem_of_union.
    + right. by case_decide.
    + by left.
    + destruct (IH _ _ Hin); [by left | right; by case_decide].
  - rewrite acl_record_comparison; cbn zeta.
    rewrite hasSalary_at_record_comparison, !elem_of_union, !elem_of_singleton.
    intros [E | [E | [E | Hin]]]; try (inversion E; subst; by auto).
    by apply (IH h a).
Qed.

(** X14: the event log and the ledger agree: a pair has a record exactly when the
    log has a [SalaryCompared] event for it, and the log has no pair twice. *)
Theorem log_matches_ledger s :
  reachable this s ->
  (forall a b, performed_at s a b = true <-> (a, b) ∈ compared_pairs (events s))
  /\ NoDup (compared_pairs (events s)).
Proof.
  revert s. apply (reachable_invariant this (fun s =>
    (forall a b, performed_at s a b = true <-> (a, b) ∈ compared_pairs (events s))
    /\ NoDup (compared_pairs (events s)))).
  { split; [|constructor]. intros a b. split; [done|]. by intros ?%elem_of_nil. }
  intros s s' [IH Hnd] Hstep.
  destruct Hstep as [s sender ts h | s sender ts h Hs | s sender ts o Hne Hs Ho Hp].
  - rewrite events_store_salary. unfold compared_pairs in *.
    rewrite omap_app; cbn [omap list_omap compared_pair]. rewrite app_nil_r.
    split; [|done]. intros a b. rewrite performed_at_store_salary. apply IH.
  - rewrite events_store_salary. unfold compared_pairs in *.
    rewrite omap_app; cbn [omap list_omap compared_pair]. rewrite app_nil_r.
    split; [|done]. intros a b. rewrite performed_at_store_salary. apply IH.
  - rewrite events_record_comparison. unfold compared_pairs in *.
    rewrite omap_app; cbn [omap list_omap compared_pair].
    split.
    + intros a b. rewrite performed_at_record_comparison, elem_of_app,
        list_elem_of_singleton, <- IH.
      case_decide as E; [inversion E; subst; tauto|].
      split; [tauto|]. intros [? | [= -> ->]]; done.
    + apply NoDup_app. split; [done|]. split; [|apply NoDup_singleton].
      intros [x y] Hin [= -> ->]%list_elem_of_singleton.
      apply IH in Hin. congruence.
Qed.

(** X15: an account has a salary exactly when the log has a [SalarySubmitted]
    event for it: only [submitSalary] ever sets the flag. *)
Theorem presence_matches_log s :
  reachable this s ->
  forall a, hasSalary_at s a = true <-> a ∈ submitted_users (events s).
Proof.
  revert s. apply (reachable_invariant this (fun s => forall a,
    hasSalary_at s a = true <-> a ∈ submitted_users (events s))).
  { intros a. split; [done|]. by intros ?%elem_of_nil. }
  intros s s' IH Hstep a.
  destruct Hstep as [s sender ts h | s sender ts h Hs | s sender ts o Hne Hs Ho Hp].
  - rewrite events_store_salary, hasSalary_at_store_salary. unfold submitted_users in *.
    rewrite omap_app, elem_of_app; cbn [omap list_omap submitted_user].
    rewrite list_elem_of_singleton, <- IH.
    case_decide; [subst; tauto|]. split; [tauto|]. intros [?| ->]; done.
  - rewrite events_store_salary, hasSalary_at_store_salary. unfold submitted_users in *.
    rewrite omap_app; cbn [omap list_omap submitted_user]. rewrite app_nil_r, <- IH.
    case_decide; [subst; tauto | tauto].
  - rewrite events_record_comparison, hasSalary_at_record_comparison.
    unfold submitted_users in *.
    rewrite omap_app; cbn [omap list_omap submitted_user]. rewrite app_nil_r. apply IH.
Qed.

(** X16: the event log only grows at its end: the log of a state is a prefix of
    the log after any sequence of transactions. *)
Theorem event_log_is_append_only s txs :
  events s `prefix_of` events (run this s txs).
Proof.
  pose proof (run_steps this txs s) as Hrtc.
  induction Hrtc as [|s1 s2 s3 H12 _ IH]; [done|].
  etrans; [|exact IH].
  destruct (step_events _ _ H12) as [ev ->]. by apply prefix_app_r.
Qed.

End Reachable.

(** ** Salaries *)

Section Salaries.

Context {engine : Engine}.
Variable this : address.
Implicit Types (s : State) (A B a b o : address) (tx : Tx) (ts : uint256).

Lemma transact_submitSalary s A ts x p :
  transact (dispatch this A ts (CallSubmitSalary x p)) s
  = match engine_fromExternal x p with
    | Some h => (store_salary this A h (SalarySubmitted A ts) s, Ok VUnit)
    | None => (s, Reverted InvalidInputProof)
    end.
Proof.
  cbn [dispatch]. rewrite transact_returning, submitSalary_run.
  by destruct (engine_fromExternal x p).
Qed.

Lemma transact_updateSalary s A ts x p :
  transact (dispatch this A ts (CallUpdateSalary x p)) s
  = if hasSalary_at s A
    then match engine_fromExternal x p with
         | Some h => (store_salary this A h (SalaryUpdated A ts) s, Ok VUnit)
         | None => (s, Reverted InvalidInputProof)
         end
    else (s, Reverted (Error "You must submit a salary first before updating it")).
Proof.
  cbn [dispatch]. rewrite transact_returning, updateSalary_run.
  destruct (hasSalary_at s A); [|done]. by destruct (engine_fromExternal x p).
Qed.

Lemma outcome_getMySalary s A ts :
  outcome this s (mkTx A ts CallGetMySalary)
  = if hasSalary_at s A then Ok (VHandle (salary_at s A))
    else Reverted (Error "You have not submitted a salary yet").
Proof.
  unfold outcome; cbn [tx_sender tx_timestamp tx_call dispatch].
  rewrite transact_returning, getMySalary_run. by destruct (hasSalary_at s A).
Qed.

Lemma outcome_getComparisonResult s viewer ts u1 u2 :
  outcome this s (mkTx viewer ts (CallGetComparisonResult u1 u2))
  = if (viewer =? u1) || (viewer =? u2)
    then if performed_at s u1 u2 then Ok (VHandle (result_at s u1 u2))
         else Reverted (Error "Comparison has not been performed yet")
    else Reverted (Error "You can only view comparisons you are part of").
Proof.
  unfold outcome; cbn [tx_sender tx_timestamp tx_call dispatch].
  rewrite transact_returning, getComparisonResult_run.
  destruct ((viewer =? u1) || (viewer =? u2)); [|done].
  by destruct (performed_at s u1 u2).
Qed.

(** X1: when the engine accepts the input as handle [h], [submitSalary] goes
    through in every state, with or without an earlier salary of the caller;
    afterwards [getMySalary] of the caller returns [h], the caller and the
    contract are granted on [h], and the log has one more event,
    [SalarySubmitted]. *)
Theorem submit_then_get_my_salary s A ts x p h ts' :
  engine_fromExternal x p = Some h ->
  outcome this s (mkTx A ts (CallSubmitSalary x p)) = Ok VUnit
  /\ outcome this (exec this s (mkTx A ts (CallSubmitSalary x p)))
       (mkTx A ts' CallGetMySalary) = Ok (VHandle h)
  /\ (h, A) ∈ acl (exec this s (mkTx A ts (CallSubmitSalary x p)))
  /\ (h, this) ∈ acl (exec this s (mkTx A ts (CallSubmitSalary x p)))
  /\ events (exec this s (mkTx A ts (CallSubmitSalary x p)))
     = (events s ++ [SalarySubmitted A ts])%list.
Proof.
  intros Hh. rewrite outcome_getMySalary.
  unfold outcome, exec; cbn [tx_sender tx_timestamp tx_call].
  rewrite transact_submitSalary, Hh; cbn [fst snd].
  rewrite hasSalary_at_store_salary, salary_at_store_salary, acl_store_salary.
  case_decide; [|done]. repeat split; set_solver.
Qed.


(** X3: an update that goes through replaces the handle [getMySalary] returns
    and nothing else of the ledger: the salaries of the other accounts and
    every comparison record with its result stay as they were, so a result
    computed from the old salary is still the one on record. *)
Theorem update_replaces_only_the_handle s A ts x p h ts' :
  hasSalary_at s A = true -> engine_fromExternal x p = Some h ->
  outcome this (exec this s (mkTx A ts (CallUpdateSalary x p)))
    (mkTx A ts' CallGetMySalary) = Ok (VHandle h)
  /\ (forall a, a <> A ->
        salary_at (exec this s (mkTx A ts (CallUpdateSalary x p))) a = salary_at s a)
  /\ comparisonPerformed (exec this s (mkTx A ts (CallUpdateSalary x p)))
     = comparisonPerformed s
  /\ comparisonResults (exec this s (mkTx A ts (CallUpdateSalary x p)))
     = comparisonResults s.
Proof.
  intros HA Hh. rewrite outcome_getMySalary.
  unfold exec; cbn [tx_sender tx_timestamp tx_call].
  rewrite transact_updateSalary, HA, Hh; cbn [fst].
  rewrite hasSalary_at_store_salary, salary_at_store_salary.
  case_decide; [|done]. repeat split.
  intros a Ha. rewrite salary_at_store_salary. by case_decide.
Qed.

(** X4: for A and B distinct, [compareSalaries] of A on B fails with NotFound as
    soon as one of them has no salary, and the message names the caller when
    the caller is the one, or one of the ones, without a salary. *)
Theorem compare_requires_both_salaries s A B ts :
  A <> B -> hasSalary_at s A && hasSalary_at s B = false ->
  outcome this s (mkTx A ts (CallCompareSalaries B))
  = Reverted (Error (if hasSalary_at s A
                     then "The other user has not submitted a salary yet"
                     else "You have not submitted a salary yet"))
  /\ fails_with (outcome this s (mkTx A ts (CallCompareSalaries B))) NotFound
  /\ exec this s (mkTx A ts (CallCompareSalaries B)) = s.
Proof.
  intros Hne Hmiss. unfold outcome, exec; cbn [tx_sender tx_timestamp tx_call].
  rewrite transact_compareSalaries.
  destruct (N.eqb_spec A B) as [|_]; [done|].
  destruct (hasSalary_at s A); cbn [negb fst snd].
  - cbn [andb] in Hmiss. rewrite Hmiss; cbn [negb fst snd].
    repeat split. eexists; split; reflexivity.
  - repeat split. eexists; split; reflexivity.
Qed.

(** X5: after the compare of A on B has gone through, [getComparisonResult] for
    the pair (A,B) returns, to A and to B, the handle the engine made from
    the two salaries stored at the time of the compare, and it still does
    after any further transactions, salary updates included. *)
Theorem compare_then_get_result s A B ts txs ts' :
  A <> B -> hasSalary_at s A = true -> hasSalary_at s B = true ->
  performed_at s A B = false ->
  let s' := run this (exec this s (mkTx A ts (CallCompareSalaries B))) txs in
  outcome this s' (mkTx A ts' (CallGetComparisonResult A B))
  = Ok (VHandle (engine_gt (salary_at s A) (salary_at s B)))
  /\ outcome this s' (mkTx B ts' (CallGetComparisonResult A B))
     = Ok (VHandle (engine_gt (salary_at s A) (salary_at s B))).
Proof.
  intros Hne HA HB Hnew s'.
  assert (E : exec this s (mkTx A ts (CallCompareSalaries B))
              = record_comparison this A ts B s).
  { unfold exec; cbn [tx_sender tx_timestamp tx_call].
    rewrite transact_compareSalaries, HA, HB, Hnew.
    by destruct (N.eqb_spec A B). }
  destruct (ext_performed _ _ (run_extends this txs (record_comparison this A ts B s)) A B)
    as [Hp Hr].
  { rewrite performed_at_record_comparison. by case_decide. }
  rewrite result_at_record_comparison in Hr. case_decide; [|done].
  subst s'. rewrite E, !outcome_getComparisonResult, Hp, Hr, !N.eqb_refl.
  by rewrite orb_true_r.
Qed.

End Salaries.

(** ** The batch *)

Section Batch.

Context {engine : Engine}.
Variable this : address.
Implicit Types (s : State) (A B C a b o : address) (tx : Tx) (ts : uint256).

Lemma batch_effect_valid_entries sender ts pending : forall s s',
  batch_effect this sender ts pending s = Ok (tt, s') ->
  Forall (fun o => hasSalary_at s o = true /\ o <> sender) pending.
Proof.
  induction pending as [|o pending IH]; intros s s'; cbn [batch_effect]; [by constructor|].
  destruct (hasSalary_at s o) eqn:Ho; [|done]; cbn [negb].
  destruct (N.eqb_spec sender o) as [|Hne]; [done|].
  destruct (performed_at s sender o); intros Hrun%IH;
    (constructor; [split; [done | congruence] | exact Hrun]).
Qed.

Lemma batch_ok_inv s A ts (os : list address) :
  outcome this s (mkTx A ts (CallBatchCompareSalaries os)) = Ok VUnit ->
  hasSalary_at s A = true
  /\ (0 < length os <= 10)%nat
  /\ Forall (fun o => hasSalary_at s o = true /\ o <> A) os.
Proof.
  unfold outcome; cbn [tx_sender tx_timestamp tx_call].
  rewrite transact_batchCompareSalaries.
  destruct (hasSalary_at s A); [|done]; cbn [negb].
  destruct (N.ltb_spec 0 (N.of_nat (length os))) as [Hlo|]; [|done]; cbn [negb].
  destruct (N.leb_spec (N.of_nat (length os)) MAX_BATCH_SIZE) as [Hhi|]; [|done];
    cbn [negb].
  destruct (batch_effect this A ts os s) as [[[] s']|e] eqn:Hb; [|done].
  intros _. split; [done|]. split; [unfold MAX_BATCH_SIZE in Hhi; lia|].
  by eapply batch_effect_valid_entries.
Qed.

(** X6: [batchCompareSalaries] goes through exactly when the caller has a
    salary, the batch has between 1 and 10 entries, and every entry has a
    salary and is not the caller.  Entries already compared and repeated
    entries do not make it fail. *)
Theorem batch_succeeds_iff s A ts (os : list address) :
  outcome this s (mkTx A ts (CallBatchCompareSalaries os)) = Ok VUnit
  <-> hasSalary_at s A = true
      /\ (0 < length os <= 10)%nat
      /\ Forall (fun o => hasSalary_at s o = true /\ o <> A) os.
Proof.
  split; [apply batch_ok_inv|].
  intros (HA & Hlen & Hall).
  unfold outcome; cbn [tx_sender tx_timestamp tx_call].
  rewrite transact_batch_within_cap by done.
  destruct (batch_effect_succeeds this A ts os s) as [s' ->]; [|done].
  intros o Ho. by apply (proj1 (Forall_forall _ _) Hall).
Qed.

(** X7: a batch that goes through leaves the state in which the compares of the
    caller on each entry, one transaction per entry in the order of the
    batch, leave it; the compares on entries that already have a record
    revert and change nothing, which is how the batch skips them. *)
Theorem batch_is_sequence_of_compares s A ts (os : list address) :
  outcome this s (mkTx A ts (CallBatchCompareSalaries os)) = Ok VUnit ->
  exec this s (mkTx A ts (CallBatchCompareSalaries os))
  = run this s (map (fun o => mkTx A ts (CallCompareSalaries o)) os).
Proof.
  intros Hok. pose proof (batch_ok_inv s A ts os Hok) as (HA & Hlen & _).
  unfold exec; cbn [tx_sender tx_timestamp tx_call].
  rewrite transact_batch_within_cap by done.
  destruct (batch_effect this A ts os s) as [[[] s']|e] eqn:Hb.
  2:{ revert Hok. unfold outcome; cbn [tx_sender tx_timestamp tx_call].
      by rewrite transact_batch_within_cap, Hb by done. }
  cbn [fst]. clear Hok Hlen. revert s s' HA Hb.
  induction os as [|o os IH]; intros s s' HA; cbn [batch_effect map run fold_left].
  - by intros [= <-].
  - change (fold_left (exec this) ?l ?x) with (run this x l).
    unfold exec at 1; cbn [tx_sender tx_timestamp tx_call].
    rewrite transact_compareSalaries, HA; cbn [negb].
    destruct (hasSalary_at s o); [|done]; cbn [negb].
    destruct (A =? o); [done|].
    destruct (performed_at s A o); cbn [fst]; intros Hb; by apply IH.
Qed.

(** X8: the skip: when (A,B) has a record and C is fresh, the batch of A over
    [B, C] goes through, keeps the stored result of (A,B), records (A,C), and
    emits the one event of the new record. *)
Theorem batch_skips_recorded_pair s A B C ts :
  hasSalary_at s A = true -> hasSalary_at s B = true -> hasSalary_at s C = true ->
  A <> B -> A <> C ->
  performed_at s A B = true -> performed_at s A C = false ->
  outcome this s (mkTx A ts (CallBatchCompareSalaries [B; C])) = Ok VUnit
  /\ result_at (exec this s (mkTx A ts (CallBatchCompareSalaries [B; C]))) A B
     = result_at s A B
  /\ performed_at (exec this s (mkTx A ts (CallBatchCompareSalaries [B; C]))) A C = true
  /\ result_at (exec this s (mkTx A ts (CallBatchCompareSalaries [B; C]))) A C
     = engine_gt (salary_at s A) (salary_at s C)
  /\ events (exec this s (mkTx A ts (CallBatchCompareSalaries [B; C])))
     = (events s ++ [SalaryCompared A C ts])%list.
Proof.
  intros HA HB HC HAB HAC HpB HpC.
  assert (Hrun : batch_effect this A ts [B; C] s
                 = Ok (tt, record_comparison this A ts C s)).
  { cbn [batch_effect]. rewrite HB, HC, HpB, HpC; cbn [negb].
    destruct (N.eqb_spec A B) as [|_]; [done|].
    by destruct (N.eqb_spec A C) as [|_]. }
  unfold outcome, exec; cbn [tx_sender tx_timestamp tx_call].
  rewrite transact_batch_within_cap, Hrun by (done || (cbn [length]; lia)).
  cbn [fst snd].
  rewrite performed_at_record_comparison, !result_at_record_comparison.
  repeat split.
  - case_decide as E; [|done]. inversion E; subst. congruence.
  - by case_decide.
  - by case_decide.
Qed.

(** X9: a batch whose entries all have a record with the caller goes through
    and changes nothing: no write, no grant, no event. *)
Theorem batch_of_recorded_pairs_changes_nothing s A ts (os : list address) :
  hasSalary_at s A = true -> (0 < length os <= 10)%nat ->
  Forall (fun o => hasSalary_at s o = true /\ o <> A /\ performed_at s A o = true) os ->
  outcome this s (mkTx A ts (CallBatchCompareSalaries os)) = Ok VUnit
  /\ exec this s (mkTx A ts (CallBatchCompareSalaries os)) = s.
Proof.
  intros HA Hlen Hall.
  assert (Hrun : batch_effect this A ts os s = Ok (tt, s)).
  { clear Hlen. induction Hall as [|o os (Ho & Hne & Hp) _ IH]; [done|].
    cbn [batch_effect]. rewrite Ho, Hp; cbn [negb].
    by destruct (N.eqb_spec A o) as [|_]. }
  unfold outcome, exec; cbn [tx_sender tx_timestamp tx_call].
  by rewrite transact_batch_within_cap, Hrun by done.
Qed.

Lemma batch_effect_others sender ts pending : forall s s',
  batch_effect this sender ts pending s = Ok (tt, s') ->
  forall a b, a <> sender ->
    performed_at s' a b = performed_at s a b /\ result_at s' a b = result_at s a b.
Proof.
  induction pending as [|o pending IH]; intros s s'; cbn [batch_effect].
  - by intros [= <-].
  - destruct (hasSalary_at s o); [|done]; cbn [negb].
    destruct (sender =? o); [done|].
    destruct (performed_at s sender o); [by apply IH|].
    intros Hrun a b Ha. destruct (IH _ _ Hrun a b Ha) as [-> ->].
    rewrite performed_at_record_comparison, result_at_record_comparison.
    case_decide as E; [inversion E; congruence | done].
Qed.

(** X11: a transaction touches the ledger entries of its sender only: the
    salary and the presence flag of any other account, and every comparison
    record whose requester is another account, are after the transaction what
    they were before. *)
Theorem transaction_touches_only_its_sender s tx a :
  a <> tx_sender tx ->
  salary_at (exec this s tx) a = salary_at s a
  /\ hasSalary_at (exec this s tx) a = hasSalary_at s a
  /\ forall b, performed_at (exec this s tx) a b = performed_at s a b
               /\ result_at (exec this s tx) a b = result_at s a b.
Proof.
  intros Ha.
  destruct (exec_cases this s tx) as [(v & s' & Hd & -> & _) | (e & _ & -> & _)]; [|done].
  apply dispatch_inv in Hd
    as [-> | [(h & ev & ->) | [(o & _ & _ & _ & _ & _ & _ & ->) | (os & _ & _ & _ & Hb)]]].
  - done.
  - rewrite salary_at_store_salary, hasSalary_at_store_salary.
    case_decide; [congruence | done].
  - split; [done|]. split; [done|]. intros b.
    rewrite performed_at_record_comparison, result_at_record_comparison.
    case_decide as E; [inversion E; congruence | done].
  - destruct (batch_effect_salaries this _ _ _ _ _ Hb) as [Es Eh].
    unfold salary_at, hasSalary_at. rewrite Es, Eh.
    split; [done|]. split; [done|]. intros b. by eapply batch_effect_others.
Qed.

End Batch.

(** * The front end *)

Section Address_field.

Import Frontend.
Import Stdlib.Strings.Ascii.

Lemma hex_digits_to_end_length n : forall str,
  hex_digits_to_end n str = true -> String.length str = n.
Proof.
  induction n as [|n IH]; intros [|c rest]; cbn; try done.
  intros [_ H]%andb_prop. by rewrite (IH rest H).
Qed.

Lemma valid_address_inv (address : string) :
  isValidEthereumAddress address = true ->
  exists rest, address = String "0" (String "x" rest)
               /\ hex_digits_to_end 40 rest = true.
Proof.
  destruct address as [|c0 [|c1 rest]]; [done| |].
  - by destruct c0 as [[] [] [] [] [] [] [] []].
  - destruct c0 as [[] [] [] [] [] [] [] []]; try done.
    destruct c1 as [[] [] [] [] [] [] [] []]; try done.
    intros H. by exists rest.
Qed.

(** X17: an accepted address has exactly 42 characters: a shorter or a longer
    input, the empty one included, is rejected. *)
Theorem valid_address_has_42_characters (address : string) :
  isValidEthereumAddress address = true -> String.length address = 42%nat.
Proof.
  intros (rest & -> & H%hex_digits_to_end_length)%valid_address_inv.
  cbn [String.length]. by rewrite H.
Qed.

(** X18: the compare button is enabled exactly when the hook allows a compare
    and a click would call the contract; and a click calls the contract
    exactly when the address is valid, the test for a non-empty input adding
    nothing to the pattern. *)
Theorem compare_button_agrees_with_click (canCompare : bool) (compareAddress : string) :
  compare_button_disabled canCompare compareAddress
  = negb (canCompare && compare_click_calls compareAddress)
  /\ compare_click_calls compareAddress = isValidEthereumAddress compareAddress.
Proof.
  assert (E : compare_click_calls compareAddress = isValidEthereumAddress compareAddress).
  { unfold compare_click_calls. by destruct compareAddress. }
  split; [|exact E]. rewrite E. unfold compare_button_disabled.
  by destruct canCompare, compareAddress as [|c rest]; cbn [negb orb andb is_truthy].
Qed.

Lemma is_hex_digit_flip_case c : is_hex_digit (flip_case c) = is_hex_digit c.
Proof. by destruct c as [[] [] [] [] [] [] [] []]. Qed.

Lemma hex_digits_to_end_case_variant digits variant :
  case_variant digits variant ->
  forall n, hex_digits_to_end n variant = hex_digits_to_end n digits.
Proof.
  induction 1 as [|c str variant _ IH|c str variant _ IH]; intros [|n];
    cbn [hex_digits_to_end]; try done.
  - by rewrite IH.
  - by rewrite IH, is_hex_digit_flip_case.
Qed.

(** X19: the pattern does not look at the case of the 40 digits, so an address is
    accepted in any mix of cases, whatever its checksum; the x of the prefix
    has to be lower case. *)
Theorem address_digits_are_case_insensitive (digits variant rest : string) :
  case_variant digits variant ->
  isValidEthereumAddress (String "0" (String "x" variant))
  = isValidEthereumAddress (String "0" (String "x" digits))
  /\ isValidEthereumAddress (String "0" (String "X" rest)) = false.
Proof.
  intros Hv. split; [|reflexivity].
  cbn [isValidEthereumAddress]. by apply hex_digits_to_end_case_variant.
Qed.

End Address_field.

Section Salary_form.

Import Frontend.

Variable parseInt : string -> option Z.

Lemma handleSalarySubmit_salary_inv (salaryInput : string) (canSubmit : bool) (v : Z) :
  handleSalarySubmit_salary parseInt salaryInput canSubmit = Some v ->
  parseInt salaryInput = Some v /\ (0 < v <= 10000000)%Z /\ canSubmit = true.
Proof.
  unfold handleSalarySubmit_salary, num_gt, num_le, MAX_SALARY.
  destruct (parseInt salaryInput) as [w|]; [|done].
  destruct (Z.ltb_spec 0 w); [|done]. destruct (Z.leb_spec w 10000000); [|done].
  destruct canSubmit; [|done]. cbn [andb]. intros [= ->]. repeat split; lia.
Qed.

(** X20: a salary that the form passes on is the number read from the
    input, lies between 1 and 10000000, and so fits the 32 bits of the
    encrypted integer; and the hook allowed the submission. *)
Theorem submitted_salary_is_in_range (salaryInput : string) (canSubmit : bool) (v : Z) :
  handleSalarySubmit_salary parseInt salaryInput canSubmit = Some v ->
  parseInt salaryInput = Some v /\ (0 < v <= 10000000)%Z /\ (v < 2 ^ 32)%Z
  /\ canSubmit = true.
Proof.
  intros (Hp & Hv & Hc)%handleSalarySubmit_salary_inv. repeat split; try done; lia.
Qed.

(** X21: the submit button is enabled while the handler passes nothing on
    exactly when the hook allows a submission and the input is not empty but
    reads as NaN: for such an input a click, or the Enter key, does
    nothing though the button is live. *)
Theorem submit_button_live_without_effect (salaryInput : string) (canSubmit : bool) :
  submit_button_disabled parseInt canSubmit salaryInput = false
  /\ handleSalarySubmit_salary parseInt salaryInput canSubmit = None
  <-> canSubmit = true /\ salaryInput <> EmptyString /\ parseInt salaryInput = None.
Proof.
  unfold submit_button_disabled, handleSalarySubmit_salary, num_gt, num_le, MAX_SALARY.
  destruct canSubmit, salaryInput as [|c rest], (parseInt _) as [w|];
    cbn [negb orb andb is_truthy]; try (split; [intros [? ?] | intros (? & ? & ?)]; done).
  destruct (Z.ltb_spec 0 w), (Z.leb_spec w 10000000), (Z.leb_spec w 0),
    (Z.ltb_spec 10000000 w); cbn [negb orb andb];
    try lia; split; try (intros [? ?]; done); try (intros (? & ? & ?); done).
Qed.

(** X22: with [parseInt] reading the empty input as NaN, as the built-in does,
    the button is enabled whenever the handler would pass a salary on. *)
Theorem submit_button_enabled_when_handler_submits
    (salaryInput : string) (canSubmit : bool) (v : Z) :
  parseInt EmptyString = None ->
  handleSalarySubmit_salary parseInt salaryInput canSubmit = Some v ->
  submit_button_disabled parseInt canSubmit salaryInput = false.
Proof.
  intros Hempty Hsub.
  destruct (handleSalarySubmit_salary_inv _ _ _ Hsub) as (Hp & Hv & ->).
  unfold submit_button_disabled, num_gt, num_le. rewrite Hp.
  destruct salaryInput as [|c rest]; [congruence|]. cbn [negb orb is_truthy].
  destruct (Z.leb_spec v 0); [lia|]. destruct (Z.ltb_spec 10000000 v); [lia|]. done.
Qed.

End Salary_form.

(** ** The failures of the batch *)

Section Batch_failures.

Context {engine : Engine}.
Variable this : address.

(** X10: a batch that reverts does so as NotFound, EmptyBatch, BatchTooLarge or
    SelfComparison: the message of the duplicate scan is never the one
    returned. *)
Theorem batch_revert_kinds (s : State) (A : address) (ts : uint256)
    (os : list address) (e : Revert) :
  outcome this s (mkTx A ts (CallBatchCompareSalaries os)) = Reverted e ->
  kind_of e = Some NotFound \/ kind_of e = Some EmptyBatch
  \/ kind_of e = Some BatchTooLarge \/ kind_of e = Some SelfComparison.
Proof.
  unfold outcome; cbn [tx_sender tx_timestamp tx_call].
  rewrite transact_batchCompareSalaries.
  destruct (hasSalary_at s A); cbn [negb]; [|intros [= <-]; by left].
  destruct (0 <? N.of_nat (length os)); cbn [negb]; [|intros [= <-]; right; by left].
  destruct (N.of_nat (length os) <=? MAX_BATCH_SIZE); cbn [negb];
    [|intros [= <-]; right; right; by left].
  destruct (batch_effect this A ts os s) as [[[] s']|e'] eqn:Hb; [done|].
  cbn [snd]. intros [= <-].
  apply batch_effect_reverts in Hb as [-> | ->]; [by left | by do 3 right].
Qed.

End Batch_failures.

(** * The further properties on concrete states *)

Section Concrete_more.

Import Demo Scenarios Frontend.
Import Stdlib.Strings.Ascii.

Lemma compared_2_1_reachable : reachable (engine := demo_engine) contract compared_2_1.
Proof. exists history_2_1. by vm_compute. Qed.

Lemma records_are_well_formed_witness :
  performed_at compared_2_1 2 1 = true
  /\ (2 : N) <> 1 /\ hasSalary_at compared_2_1 2 = true
  /\ hasSalary_at compared_2_1 1 = true.
Proof.
  assert (Hp : performed_at compared_2_1 2 1 = true) by (by vm_compute).
  split; [exact Hp|].
  exact (records_are_well_formed (engine := demo_engine) contract compared_2_1
           compared_2_1_reachable 2 1 Hp).
Defined.

Lemma grantees_are_registered_witness :
  (11, 1) ∈ acl compared_2_1
  /\ ((1 : N) = contract \/ hasSalary_at compared_2_1 1 = true).
Proof.
  assert (Hin : (11, 1) ∈ acl compared_2_1).
  { refine (bool_decide_unpack _ _). by vm_compute. }
  split; [exact Hin|].
  exact (grantees_are_registered (engine := demo_engine) contract compared_2_1
           compared_2_1_reachable 11 1 Hin).
Defined.

Lemma log_matches_ledger_witness :
  (performed_at compared_2_1 2 1 = true
   <-> (2, 1) ∈ compared_pairs (events compared_2_1))
  /\ NoDup (compared_pairs (events compared_2_1)).
Proof.
  destruct (log_matches_ledger (engine := demo_engine) contract compared_2_1
              compared_2_1_reachable) as [H1 H2].
  split; [apply H1 | exact H2].
Defined.

Lemma presence_matches_log_witness :
  hasSalary_at compared_2_1 3 = true <-> 3 ∈ submitted_users (events compared_2_1).
Proof.
  exact (presence_matches_log (engine := demo_engine) contract compared_2_1
           compared_2_1_reachable 3).
Defined.

Lemma submit_then_get_my_salary_witness :
  outcome (engine := demo_engine) contract three_salaries
    (mkTx 1 7 (CallSubmitSalary 41 proof1)) = Ok VUnit
  /\ outcome (engine := demo_engine) contract
       (exec (engine := demo_engine) contract three_salaries
          (mkTx 1 7 (CallSubmitSalary 41 proof1)))
       (mkTx 1 8 CallGetMySalary) = Ok (VHandle 41)
  /\ (41, 1) ∈ acl (exec (engine := demo_engine) contract three_salaries
                      (mkTx 1 7 (CallSubmitSalary 41 proof1)))
  /\ (41, contract) ∈ acl (exec (engine := demo_engine) contract three_salaries
                             (mkTx 1 7 (CallSubmitSalary 41 proof1)))
  /\ events (exec (engine := demo_engine) contract three_salaries
               (mkTx 1 7 (CallSubmitSalary 41 proof1)))
     = (events three_salaries ++ [SalarySubmitted 1 7])%list.
Proof.
  apply (submit_then_get_my_salary (engine := demo_engine) contract three_salaries
           1 7 41 proof1 41 8). reflexivity.
Defined.


Lemma update_replaces_only_the_handle_witness :
  outcome (engine := demo_engine) contract
    (exec (engine := demo_engine) contract compared_1_2 (mkTx 1 7 (CallUpdateSalary 41 proof1)))
    (mkTx 1 8 CallGetMySalary) = Ok (VHandle 41)
  /\ result_at (exec (engine := demo_engine) contract compared_1_2
                  (mkTx 1 7 (CallUpdateSalary 41 proof1))) 1 2
     = result_at compared_1_2 1 2.
Proof.
  assert (HA : hasSalary_at compared_1_2 1 = true) by (by vm_compute).
  destruct (update_replaces_only_the_handle (engine := demo_engine) contract compared_1_2
              1 7 41 proof1 41 8 HA eq_refl) as (H1 & _ & _ & H4).
  split; [exact H1|]. unfold result_at. by rewrite H4.
Defined.

Lemma compare_requires_both_salaries_witness :
  outcome (engine := demo_engine) contract three_salaries
    (mkTx 1 7 (CallCompareSalaries 4))
  = Reverted (Error "The other user has not submitted a salary yet")
  /\ outcome (engine := demo_engine) contract three_salaries
       (mkTx 4 7 (CallCompareSalaries 5))
     = Reverted (Error "You have not submitted a salary yet").
Proof.
  split.
  - apply (compare_requires_both_salaries (engine := demo_engine) contract
             three_salaries 1 4 7); by vm_compute.
  - apply (compare_requires_both_salaries (engine := demo_engine) contract
             three_salaries 4 5 7); by vm_compute.
Defined.

Lemma compare_then_get_result_witness :
  let s' := run (engine := demo_engine) contract
              (exec (engine := demo_engine) contract three_salaries
                 (mkTx 1 5 (CallCompareSalaries 2)))
              [mkTx 1 6 (CallUpdateSalary 41 proof1); mkTx 2 7 (CallUpdateSalary 42 proof1)] in
  outcome (engine := demo_engine) contract s' (mkTx 1 8 (CallGetComparisonResult 1 2))
  = Ok (VHandle (engine_gt (Engine := demo_engine)
                   (salary_at three_salaries 1) (salary_at three_salaries 2)))
  /\ outcome (engine := demo_engine) contract s' (mkTx 2 8 (CallGetComparisonResult 1 2))
     = Ok (VHandle (engine_gt (Engine := demo_engine)
                      (salary_at three_salaries 1) (salary_at three_salaries 2))).
Proof.
  apply (compare_then_get_result (engine := demo_engine) contract three_salaries 1 2 5
           [mkTx 1 6 (CallUpdateSalary 41 proof1); mkTx 2 7 (CallUpdateSalary 42 proof1)] 8);
    by vm_compute.
Defined.

Lemma batch_succeeds_iff_witness :
  outcome (engine := demo_engine) contract three_salaries
    (mkTx 1 5 (CallBatchCompareSalaries [2; 3; 2])) = Ok VUnit.
Proof.
  apply (proj2 (batch_succeeds_iff (engine := demo_engine) contract three_salaries 1 5
                  [2; 3; 2])).
  split; [by vm_compute|]. split; [cbn; lia|].
  repeat (constructor; [by vm_compute|]). constructor.
Defined.

Lemma batch_is_sequence_of_compares_witness :
  exec (engine := demo_engine) contract compared_1_2
    (mkTx 1 9 (CallBatchCompareSalaries [2; 3; 3]))
  = run (engine := demo_engine) contract compared_1_2
      [mkTx 1 9 (CallCompareSalaries 2); mkTx 1 9 (CallCompareSalaries 3);
       mkTx 1 9 (CallCompareSalaries 3)].
Proof.
  apply (batch_is_sequence_of_compares (engine := demo_engine) contract compared_1_2 1 9
           [2; 3; 3]). by vm_compute.
Defined.

Lemma batch_skips_recorded_pair_witness :
  outcome (engine := demo_engine) contract compared_1_2
    (mkTx 1 9 (CallBatchCompareSalaries [2; 3])) = Ok VUnit
  /\ result_at (exec (engine := demo_engine) contract compared_1_2
                  (mkTx 1 9 (CallBatchCompareSalaries [2; 3]))) 1 2
     = result_at compared_1_2 1 2
  /\ performed_at (exec (engine := demo_engine) contract compared_1_2
                     (mkTx 1 9 (CallBatchCompareSalaries [2; 3]))) 1 3 = true
  /\ result_at (exec (engine := demo_engine) contract compared_1_2
                  (mkTx 1 9 (CallBatchCompareSalaries [2; 3]))) 1 3
     = engine_gt (Engine := demo_engine) (salary_at compared_1_2 1) (salary_at compared_1_2 3)
  /\ events (exec (engine := demo_engine) contract compared_1_2
               (mkTx 1 9 (CallBatchCompareSalaries [2; 3])))
     = (events compared_1_2 ++ [SalaryCompared 1 3 9])%list.
Proof.
  apply (batch_skips_recorded_pair (engine := demo_engine) contract compared_1_2 1 2 3 9);
    by vm_compute.
Defined.

Lemma batch_of_recorded_pairs_changes_nothing_witness :
  outcome (engine := demo_engine) contract compared_1_2
    (mkTx 1 9 (CallBatchCompareSalaries [2; 2])) = Ok VUnit
  /\ exec (engine := demo_engine) contract compared_1_2
       (mkTx 1 9 (CallBatchCompareSalaries [2; 2])) = compared_1_2.
Proof.
  apply (batch_of_recorded_pairs_changes_nothing (engine := demo_engine) contract
           compared_1_2 1 9 [2; 2]).
  - by vm_compute.
  - cbn; lia.
  - repeat (constructor; [by vm_compute|]). constructor.
Defined.

Lemma transaction_touches_only_its_sender_witness :
  salary_at (exec (engine := demo_engine) contract compared_2_1
               (mkTx 1 7 (CallUpdateSalary 41 proof1))) 2 = salary_at compared_2_1 2
  /\ hasSalary_at (exec (engine := demo_engine) contract compared_2_1
                     (mkTx 1 7 (CallUpdateSalary 41 proof1))) 2 = hasSalary_at compared_2_1 2
  /\ performed_at (exec (engine := demo_engine) contract compared_2_1
                     (mkTx 1 7 (CallUpdateSalary 41 proof1))) 2 1
     = performed_at compared_2_1 2 1.
Proof.
  destruct (transaction_touches_only_its_sender (engine := demo_engine) contract
              compared_2_1 (mkTx 1 7 (CallUpdateSalary 41 proof1)) 2)
    as (H1 & H2 & H3); [done|].
  split; [exact H1|]. split; [exact H2 | apply H3].
Defined.

Lemma batch_revert_kinds_witness :
  kind_of (Error "Cannot compare with yourself") = Some NotFound
  \/ kind_of (Error "Cannot compare with yourself") = Some EmptyBatch
  \/ kind_of (Error "Cannot compare with yourself") = Some BatchTooLarge
  \/ kind_of (Error "Cannot compare with yourself") = Some SelfComparison.
Proof.
  apply (batch_revert_kinds (engine := demo_engine) contract three_salaries 1 5 [2; 1]).
  by vm_compute.
Defined.

Lemma valid_address_has_42_characters_witness :
  isValidEthereumAddress upper_address = true /\ String.length upper_address = 42%nat.
Proof.
  assert (H : isValidEthereumAddress upper_address = true) by (by vm_compute).
  split; [exact H | exact (valid_address_has_42_characters upper_address H)].
Defined.

Lemma address_digits_are_case_insensitive_witness :
  isValidEthereumAddress (String "0"%char (String "x"%char lower_digits))
  = isValidEthereumAddress (String "0"%char (String "x"%char upper_digits)).
Proof.
  refine (proj1 (address_digits_are_case_insensitive upper_digits lower_digits EmptyString _)).
  unfold upper_digits, lower_digits.
  repeat first [ apply case_variant_nil
               | apply case_variant_keep
               | refine (case_variant_flip _ _ _ _) ].
Defined.

Lemma submitted_salary_is_in_range_witness :
  demo_parseInt "65000" = Some 65000%Z /\ (0 < 65000 <= 10000000)%Z
  /\ (65000 < 2 ^ 32)%Z /\ true = true.
Proof.
  apply (submitted_salary_is_in_range demo_parseInt "65000" true 65000%Z).
  by vm_compute.
Defined.

Lemma submit_button_live_without_effect_witness :
  submit_button_disabled demo_parseInt true ".5" = false
  /\ handleSalarySubmit_salary demo_parseInt ".5" true = None.
Proof.
  apply (proj2 (submit_button_live_without_effect demo_parseInt ".5" true)).
  by vm_compute.
Defined.

Lemma submit_button_enabled_when_handler_submits_witness :
  submit_button_disabled demo_parseInt true "65000" = false.
Proof.
  apply (submit_button_enabled_when_handler_submits demo_parseInt "65000" true 65000%Z);
    by vm_compute.
Defined.

End Concrete_more.
